(** * Embed Swiper Monitor: a shallow embedding of [embed_slackbot.py]

    The script polls an MS SQL Server database for "swiper offline" events
    and posts one Slack message per event.  Its functions mutate two module
    globals ([metrics], [shutdown_flag]) and talk to the outside world
    (pyodbc, slack_sdk, [time.sleep], [datetime.now], the file system).

    The embedding is a state-and-exception monad: the state holds the two
    globals, the local watermark of the monitor loop, the tasks handed to
    the thread pool, a trace of observable events and one call counter per
    external operation; what the outside world answers to the i-th call of
    an operation is read from an environment of oracles, so every statement
    below is quantified over all behaviours of the database, of Slack, of
    the clock and of signal delivery.

    The monitor loop runs on one thread and is followed as such.  The tasks
    it hands to the pool are recorded, not run: what a worker thread does
    with one is [send_slack_notification], which is studied on its own.

    Logging leaves no mark in the state.  The global [logger] is bound by
    [main] alone (line 474); every function is embedded as it runs with the
    name bound, which is how the program reaches it, except the clauses of
    [main] and the call of [save_metrics] from its [finally] clause, which
    run with the name unbound when the start-up failed before that line. *)

From Stdlib Require Import ZArith List String Bool Lia RelationClasses.
Import ListNotations.
Open Scope string_scope.
Open Scope list_scope.
Open Scope Z_scope.

(** ** Python values and exceptions *)

(** The exception classes the script distinguishes.  [SlackApiError] and
    [PyException] (any other error: [pyodbc.Error], [OSError], [ValueError],
    ...) are subclasses of [Exception]; [KeyboardInterrupt] and [SystemExit]
    derive from [BaseException] only. *)
Inductive exn : Type :=
| SlackApiError (error : string)
| PyException (what : string)
| KeyboardInterrupt
| SystemExit (code : Z).

(** [isinstance(e, Exception)] *)
Definition is_Exception (e : exn) : bool :=
  match e with
  | SlackApiError _ | PyException _ => true
  | KeyboardInterrupt | SystemExit _ => false
  end.

(** [isinstance(e, SlackApiError)] *)
Definition is_SlackApiError (e : exn) : bool :=
  match e with
  | SlackApiError _ => true
  | _ => false
  end.

(** [isinstance(e, KeyboardInterrupt)] *)
Definition is_KeyboardInterrupt (e : exn) : bool :=
  match e with
  | KeyboardInterrupt => true
  | _ => false
  end.

(** What a function that is annotated [-> bool] can hand back at run time:
    [True], [False], or [None] when control falls off the end of the body. *)
Inductive pybool : Type := PyTrue | PyFalse | PyNone.

(** Python truthiness, as used by [if not health_check(...)]. *)
Definition truthy (v : pybool) : bool :=
  match v with
  | PyTrue => true
  | PyFalse | PyNone => false
  end.

(** ** Data model *)

(** Timestamps ([datetime.datetime]) are integers: a count of microseconds.
    Only their order is used. *)
Definition datetime := Z.

(** [@dataclass class Metrics] *)
Record Metrics : Type := mkMetrics {
  notifications_sent : Z;
  failed_notifications : Z;
  db_connection_attempts : Z;
  db_connection_failures : Z;
  last_successful_check : option datetime
}.

(** [metrics = Metrics()] *)
Definition metrics_init : Metrics := mkMetrics 0 0 0 0 None.

(** One row of the query's result set. *)
Record Row : Type := mkRow {
  swiper_description : string;
  user_name : string;
  comment : string;
  log_datetime : datetime;
  Days_Offline : Z
}.

(** An f-string before rendering: literal text and formatted fields. *)
Inductive fragment : Type :=
| Lit (s : string)
| FmtStr (s : string)
| FmtInt (n : Z)
| FmtDatetime (t : datetime).

Definition fstring := list fragment.

(** Slack Block Kit blocks, as far as the script builds them. *)
Inductive block : Type :=
| Header (plain_text : fstring)
| SectionFields (mrkdwn_fields : list fstring)
| SectionText (mrkdwn : fstring).

(** The message payload: the list under the key ["blocks"]. *)
Record Message : Type := mkMessage { blocks : list block }.

(** The line feed of the f-strings. *)
Definition LF : string := String (Ascii.ascii_of_nat 10) EmptyString.

Definition format_slack_message (row : Row) : Message :=
  mkMessage
    [ Header [Lit "🚨 Embed Swiper Offline Alert!"];
      SectionFields
        [ [Lit ("*Game:*" ++ LF)%string; FmtStr (swiper_description row)];
          [Lit ("*User:*" ++ LF)%string; FmtStr (user_name row)];
          [Lit ("*Days Offline:*" ++ LF)%string; FmtInt (Days_Offline row)];
          [Lit ("*Log Time:*" ++ LF)%string; FmtDatetime (log_datetime row)] ];
      SectionText [Lit ("*Comment:*" ++ LF)%string; FmtStr (comment row)] ].

(** ** The outside world *)

(** A database connection handle. *)
Definition Conn := nat.

(** The methods of a connection or of a cursor the script calls; [OpExit]
    is leaving a [with conn:] block (pyodbc commits, or rolls back when the
    block raised). *)
Inductive db_op : Type :=
| OpCursor | OpExecute | OpFetchone | OpFetchall | OpCursorClose | OpConnClose | OpExit.

(** How a call of [time.sleep] ends once the length was accepted: it runs
    to its end; or a termination signal is delivered while it sleeps,
    [signal_handler] runs and the sleep resumes to its end; or it is cut
    short by [KeyboardInterrupt]; or the system call fails (on Linux,
    [OSError: [Errno 22] Invalid argument] for a length the clock of the
    platform cannot take). *)
Inductive sleep_outcome : Type :=
| Slept
| SleptSignalled (signum : Z)
| SleepInterrupted
| SleepFailed (e : exn).

(** How the lines of [main] before the first health check can fail.  The
    global [logger] is bound nowhere but at line 474 of [main]: when
    [log_dir.mkdir] or [setup_logging] raises, it stays unbound for the
    rest of the run; when [read_config], [build_connection_string] or
    [WebClient] raises, it is bound. *)
Inductive startup_failure : Type :=
| BeforeLogger (e : exn)
| AfterLogger (e : exn).

(** Where the script sleeps: between retries of a connection or of a send,
    or in the monitor loop (the poll interval). *)
Inductive sleep_site : Type := RetrySleep | PollSleep.

(** The answers of the outside world.  Each oracle is indexed by the number
    of earlier calls of the same operation. *)
Record Env : Type := mkEnv {
  (** [pyodbc.connect(connection_string)]: a connection, or the exception *)
  pyodbc_connect : nat -> Conn + exn;
  (** a method of a connection or of a cursor: [None] when it succeeds *)
  db_method : nat -> db_op -> option exn;
  (** the rows [fetchall] returns for a query bound to [last_check] *)
  query_rows : nat -> datetime -> list Row;
  (** [slack_client.chat_postMessage(...)]: [None] when it succeeds *)
  chat_postMessage : nat -> option exn;
  (** [time.sleep] of a length it accepts *)
  sleep_result : nat -> sleep_outcome;
  (** [datetime.datetime.now()] *)
  clock : nat -> datetime;
  (** writing the metrics file: [None] when it succeeds *)
  file_write : nat -> option exn;
  (** whether a termination signal is delivered while the n-th iteration of
      the monitor loop works (outside its sleeps) *)
  signal_at_work : nat -> option Z;
  (** the start-up of [main]: logs directory, logger, [read_config];
      yields the poll interval *)
  startup : Z + startup_failure
}.

(** What an observer sees of a run: the health checks, the result of every
    fetch with the bound it was made with, the submissions to the pool, the
    calls of [save_metrics], the sleeps, the signals, the end of the pool. *)
Inductive event : Type :=
| EvHealthCheck
| EvFetch (last_check : datetime) (rows : list Row)
| EvSubmit (m : Message)
| EvSaveMetrics (snapshot : Metrics)
| EvSleep (site : sleep_site) (secs : Z) (o : sleep_outcome)
| EvSignal (signum : Z)
| EvPoolShutdown.

(** The program state: the two module globals, the local [last_check] of
    the monitor loop (the watermark), the tasks handed to the thread pool,
    the trace, and the call counters of the oracles. *)
Record State : Type := mkState {
  metrics : Metrics;
  shutdown_flag : bool;
  last_check : datetime;
  pool : list Message;
  trace : list event;
  n_connect : nat;
  n_db : nat;
  n_post : nat;
  n_sleep : nat;
  n_now : nat;
  n_write : nat;
  n_iter : nat
}.

Definition state_init : State :=
  mkState metrics_init false 0 [] [] 0%nat 0%nat 0%nat 0%nat 0%nat 0%nat 0%nat.

Definition set_metrics (f : Metrics -> Metrics) (s : State) : State :=
  mkState (f (metrics s)) (shutdown_flag s) (last_check s) (pool s) (trace s)
          (n_connect s) (n_db s) (n_post s) (n_sleep s) (n_now s) (n_write s) (n_iter s).

Definition set_shutdown_flag (b : bool) (s : State) : State :=
  mkState (metrics s) b (last_check s) (pool s) (trace s)
          (n_connect s) (n_db s) (n_post s) (n_sleep s) (n_now s) (n_write s) (n_iter s).

Definition set_last_check (t : datetime) (s : State) : State :=
  mkState (metrics s) (shutdown_flag s) t (pool s) (trace s)
          (n_connect s) (n_db s) (n_post s) (n_sleep s) (n_now s) (n_write s) (n_iter s).

Definition push_pool (m : Message) (s : State) : State :=
  mkState (metrics s) (shutdown_flag s) (last_check s) (pool s ++ [m]) (trace s)
          (n_connect s) (n_db s) (n_post s) (n_sleep s) (n_now s) (n_write s) (n_iter s).

Definition emit (e : event) (s : State) : State :=
  mkState (metrics s) (shutdown_flag s) (last_check s) (pool s) (trace s ++ [e])
          (n_connect s) (n_db s) (n_post s) (n_sleep s) (n_now s) (n_write s) (n_iter s).

Definition tick_connect (s : State) : State :=
  mkState (metrics s) (shutdown_flag s) (last_check s) (pool s) (trace s)
          (S (n_connect s)) (n_db s) (n_post s) (n_sleep s) (n_now s) (n_write s) (n_iter s).

Definition tick_db (s : State) : State :=
  mkState (metrics s) (shutdown_flag s) (last_check s) (pool s) (trace s)
          (n_connect s) (S (n_db s)) (n_post s) (n_sleep s) (n_now s) (n_write s) (n_iter s).

Definition tick_post (s : State) : State :=
  mkState (metrics s) (shutdown_flag s) (last_check s) (pool s) (trace s)
          (n_connect s) (n_db s) (S (n_post s)) (n_sleep s) (n_now s) (n_write s) (n_iter s).

Definition tick_sleep (s : State) : State :=
  mkState (metrics s) (shutdown_flag s) (last_check s) (pool s) (trace s)
          (n_connect s) (n_db s) (n_post s) (S (n_sleep s)) (n_now s) (n_write s) (n_iter s).

Definition tick_now (s : State) : State :=
  mkState (metrics s) (shutdown_flag s) (last_check s) (pool s) (trace s)
          (n_connect s) (n_db s) (n_post s) (n_sleep s) (S (n_now s)) (n_write s) (n_iter s).

Definition tick_write (s : State) : State :=
  mkState (metrics s) (shutdown_flag s) (last_check s) (pool s) (trace s)
          (n_connect s) (n_db s) (n_post s) (n_sleep s) (n_now s) (S (n_write s)) (n_iter s).

Definition tick_iter (s : State) : State :=
  mkState (metrics s) (shutdown_flag s) (last_check s) (pool s) (trace s)
          (n_connect s) (n_db s) (n_post s) (n_sleep s) (n_now s) (n_write s) (S (n_iter s)).

(** Updates of the counters of [metrics]: [metrics.x += 1]. *)
Definition incr_notifications_sent (m : Metrics) : Metrics :=
  mkMetrics (notifications_sent m + 1) (failed_notifications m)
            (db_connection_attempts m) (db_connection_failures m) (last_successful_check m).

Definition incr_failed_notifications (m : Metrics) : Metrics :=
  mkMetrics (notifications_sent m) (failed_notifications m + 1)
            (db_connection_attempts m) (db_connection_failures m) (last_successful_check m).

Definition incr_db_connection_attempts (m : Metrics) : Metrics :=
  mkMetrics (notifications_sent m) (failed_notifications m)
            (db_connection_attempts m + 1) (db_connection_failures m) (last_successful_check m).

Definition incr_db_connection_failures (m : Metrics) : Metrics :=
  mkMetrics (notifications_sent m) (failed_notifications m)
            (db_connection_attempts m) (db_connection_failures m + 1) (last_successful_check m).

Definition set_last_successful_check (t : datetime) (m : Metrics) : Metrics :=
  mkMetrics (notifications_sent m) (failed_notifications m)
            (db_connection_attempts m) (db_connection_failures m) (Some t).

(** ** The monad *)

(** How a computation ends: it returns, it raises, or the fuel of the
    monitor loop ran out (the loop was still running). *)
Inductive result (A : Type) : Type :=
| Ret (a : A)
| Raise (e : exn)
| Timeout.

Arguments Ret {A} a.
Arguments Raise {A} e.
Arguments Timeout {A}.

Definition M (A : Type) : Type := State -> result A * State.

Definition ret {A} (a : A) : M A := fun s => (Ret a, s).

Definition raise {A} (e : exn) : M A := fun s => (Raise e, s).

Definition bind {A B} (m : M A) (k : A -> M B) : M B :=
  fun s =>
    match m s with
    | (Ret a, s') => k a s'
    | (Raise e, s') => (Raise e, s')
    | (Timeout, s') => (Timeout, s')
    end.

Notation "x <- m ;; k" := (bind m (fun x => k))
  (at level 61, m at next level, right associativity).
Notation "m ;;; k" := (bind m (fun _ => k))
  (at level 61, right associativity).

Definition gets {A} (f : State -> A) : M A := fun s => (Ret (f s), s).

Definition modify (f : State -> State) : M unit := fun s => (Ret tt, f s).

(** [try: body  except C as e: handler e], where [catches] decides
    [isinstance(e, C)].  The state reached when the exception was raised is
    the state the handler starts from: mutations are not rolled back. *)
Definition try_except {A} (body : M A) (catches : exn -> bool) (handler : exn -> M A) : M A :=
  fun s =>
    match body s with
    | (Raise e, s') => if catches e then handler e s' else (Raise e, s')
    | r => r
    end.

(** [try: body  finally: fin], for a [fin] without [break] or [return]:
    an exception of [fin] replaces the pending result. *)
Definition try_finally {A} (body : M A) (fin : M unit) : M A :=
  fun s =>
    match body s with
    | (Timeout, s') => (Timeout, s')
    | (r, s') =>
        match fin s' with
        | (Ret _, s'') => (r, s'')
        | (Raise e, s'') => (Raise e, s'')
        | (Timeout, s'') => (Timeout, s'')
        end
    end.

(** [try: body  finally: fin] inside a loop, where [fin] may end in [break]
    ([true]): the [break] drops whatever the body left pending, an exception
    included.  Yields whether the loop is left. *)
Definition loop_finally {A} (body : M A) (fin : M bool) : M bool :=
  fun s =>
    match body s with
    | (Timeout, s1) => (Timeout, s1)
    | (pending, s1) =>
        match fin s1 with
        | (Ret true, s2) => (Ret true, s2)
        | (Ret false, s2) =>
            match pending with
            | Ret _ => (Ret false, s2)
            | Raise e => (Raise e, s2)
            | Timeout => (Timeout, s2)
            end
        | (Raise e, s2) => (Raise e, s2)
        | (Timeout, s2) => (Timeout, s2)
        end
    end.

(** [for i in range(n): body i], where the body either goes on to the next
    index ([None]) or leaves the function with [return v] ([Some v]).  When
    the range is exhausted the loop ends without a value. *)
Fixpoint for_range {A} (n : nat) (i : Z) (body : Z -> M (option A)) : M (option A) :=
  match n with
  | O => ret None
  | S n' =>
      r <- body i ;;
      match r with
      | Some v => ret (Some v)
      | None => for_range n' (i + 1) body
      end
  end.

(** [for x in xs: body x], for a body without [break] or [return]. *)
Fixpoint for_each {A} (xs : list A) (body : A -> M unit) : M unit :=
  match xs with
  | [] => ret tt
  | x :: xs' => body x ;;; for_each xs' body
  end.

(** ** The program *)

(** The largest number of seconds that fits a signed 64-bit count of
    nanoseconds: [(2^63 - 1) // 10^9]. *)
Definition max_sleep : Z := 9223372036.

(** The exception [time.sleep(secs)] raises without sleeping, if any. *)
Definition sleep_refused (secs : Z) : option exn :=
  if (secs <? - max_sleep) || (max_sleep <? secs) then
    Some (PyException "OverflowError: timestamp too large to convert to C _PyTime_t")
  else if secs <? 0 then
    Some (PyException "ValueError: sleep length must be non-negative")
  else None.

(** What a use of the global [logger] raises while the name is unbound. *)
Definition NameError_logger : exn :=
  PyException "NameError: name 'logger' is not defined".

Section Program.

Variable env : Env.

(** *** External operations *)

(** [signal_handler(signum, frame)]: logs and sets the flag. *)
Definition signal_handler (signum : Z) : M unit :=
  modify (emit (EvSignal signum)) ;;;
  modify (set_shutdown_flag true).

(** [time.sleep(secs)] for an [int].  Before any sleeping, the length is
    converted to a 64-bit count of nanoseconds, which raises [OverflowError]
    beyond [max_sleep] seconds on either side of zero (the wording is that
    of CPython 3.11), and then a negative length raises [ValueError]. *)
Definition time_sleep (site : sleep_site) (secs : Z) : M unit :=
  match sleep_refused secs with
  | Some e => raise e
  | None =>
      o <- gets (fun s => sleep_result env (n_sleep s)) ;;
      modify tick_sleep ;;;
      modify (emit (EvSleep site secs o)) ;;;
      match o with
      | Slept => ret tt
      | SleptSignalled signum => signal_handler signum
      | SleepInterrupted => raise KeyboardInterrupt
      | SleepFailed e => raise e
      end
  end.

(** [pyodbc.connect(connection_string)] *)
Definition connect : M Conn :=
  o <- gets (fun s => pyodbc_connect env (n_connect s)) ;;
  modify tick_connect ;;;
  match o with
  | inl conn => ret conn
  | inr e => raise e
  end.

(** A method of a connection or of a cursor whose value is not used. *)
Definition db_call (op : db_op) : M unit :=
  o <- gets (fun s => db_method env (n_db s) op) ;;
  modify tick_db ;;;
  match o with
  | None => ret tt
  | Some e => raise e
  end.

(** [cursor.execute(query, last_check)] *)
Definition cursor_execute (bound : datetime) : M unit :=
  db_call OpExecute.

(** [cursor.fetchall()] after a query bound to [bound] *)
Definition cursor_fetchall (bound : datetime) : M (list Row) :=
  k <- gets n_db ;;
  db_call OpFetchall ;;;
  ret (query_rows env k bound).

(** [slack_client.chat_postMessage(channel=..., blocks=message["blocks"])] *)
Definition post_message (message : Message) : M unit :=
  o <- gets (fun s => chat_postMessage env (n_post s)) ;;
  modify tick_post ;;;
  match o with
  | None => ret tt
  | Some e => raise e
  end.

(** [datetime.datetime.now()] *)
Definition now : M datetime :=
  t <- gets (fun s => clock env (n_now s)) ;;
  modify tick_now ;;;
  ret t.

(** [with open(metrics_file, 'w') as f: json.dump(metrics_data, f, indent=2)] *)
Definition write_metrics_file : M unit :=
  o <- gets (fun s => file_write env (n_write s)) ;;
  modify tick_write ;;;
  match o with
  | None => ret tt
  | Some e => raise e
  end.

(** [with conn: body]: on the way out pyodbc ends the transaction, which can
    itself raise; an exception of the body is re-raised otherwise. *)
Definition with_conn {A} (body : M A) : M A :=
  try_finally body (db_call OpExit).

(** [pool.submit(send_slack_notification, slack_client, slack_channel, message)]:
    the task is queued for the worker threads, the caller goes on. *)
Definition pool_submit (message : Message) : M unit :=
  modify (push_pool message) ;;;
  modify (emit (EvSubmit message)).

(** *** Database connection and health check *)

(** The body of [for attempt in range(max_retries)]: [Some v] stands for
    [return v], [None] for going on to the next attempt. *)
Definition connection_attempt (max_retries retry_delay attempt : Z)
  : M (option (option Conn)) :=
  try_except
    (conn <- connect ;;
     ret (Some (Some conn)))
    is_Exception
    (fun e =>
       if attempt <? max_retries - 1 then
         time_sleep RetrySleep retry_delay ;;;
         ret None
       else
         modify (set_metrics incr_db_connection_failures) ;;;
         ret (Some None)).

Definition get_database_connection (max_retries retry_delay : Z) : M (option Conn) :=
  modify (set_metrics incr_db_connection_attempts) ;;;
  r <- for_range (Z.to_nat max_retries) 0 (connection_attempt max_retries retry_delay) ;;
  match r with
  | Some v => ret v
  | None => ret None
  end.

(** The first line records the call in the trace. *)
Definition health_check : M pybool :=
  modify (emit EvHealthCheck) ;;;
  try_except
    (conn <- get_database_connection 3 5 ;;
     match conn with
     | Some _ =>
         db_call OpCursor ;;;
         db_call OpExecute ;;;
         db_call OpFetchone ;;;
         db_call OpCursorClose ;;;
         db_call OpConnClose ;;;
         t <- now ;;
         modify (set_metrics (set_last_successful_check t)) ;;;
         ret PyTrue
     | None => ret PyNone
     end)
    is_Exception
    (fun e => ret PyFalse).

(** *** Metrics persistence *)

(** The call is recorded in the trace with the counters it is about to
    write. *)
Definition save_metrics : M unit :=
  snapshot <- gets metrics ;;
  _ <- now ;;
  modify (emit (EvSaveMetrics snapshot)) ;;;
  try_except
    write_metrics_file
    is_Exception
    (fun e => ret tt).

(** *** Sending a notification *)

(** The body of [for attempt in range(max_retries)]. *)
Definition send_attempt (message : Message) (max_retries retry_delay attempt : Z)
  : M (option pybool) :=
  try_except
    (post_message message ;;;
     modify (set_metrics incr_notifications_sent) ;;;
     ret (Some PyTrue))
    is_SlackApiError
    (fun e =>
       if attempt <? max_retries - 1 then
         time_sleep RetrySleep retry_delay ;;;
         ret None
       else
         modify (set_metrics incr_failed_notifications) ;;;
         ret (Some PyFalse)).

Definition send_slack_notification (message : Message) (max_retries retry_delay : Z)
  : M pybool :=
  r <- for_range (Z.to_nat max_retries) 0 (send_attempt message max_retries retry_delay) ;;
  match r with
  | Some v => ret v
  | None => ret PyNone
  end.

(** *** Fetching events *)

(** The value on its way out is recorded in the trace, with the bound, on
    both [return] statements. *)
Definition fetch_offline_events (bound : datetime) : M (list Row) :=
  rows <- try_except
            (cursor_execute bound ;;;
             cursor_fetchall bound)
            is_Exception
            (fun e => ret []) ;;
  modify (emit (EvFetch bound rows)) ;;;
  ret rows.

(** *** The monitor loop *)

(** [for row in rows: ...], with the local [max_log_datetime] threaded
    through; yields its final value. *)
Fixpoint submit_rows (rows : list Row) (max_log_datetime : datetime) : M datetime :=
  match rows with
  | [] => ret max_log_datetime
  | row :: rows' =>
      pool_submit (format_slack_message row) ;;;
      submit_rows rows'
        (if log_datetime row >? max_log_datetime then log_datetime row
         else max_log_datetime)
  end.

(** The outside world during the working part of an iteration: a
    termination signal may arrive, and [signal_handler] runs.  Where exactly
    it arrives between two readings of the flag makes no difference to the
    loop; it is placed at the start of the [try] block. *)
Definition signals_at_work : M unit :=
  o <- gets (fun s => signal_at_work env (n_iter s)) ;;
  modify tick_iter ;;;
  match o with
  | Some signum => signal_handler signum
  | None => ret tt
  end.

(** The body of [with conn:]: fetch the rows newer than [last_check], submit
    one notification per row, and move [last_check] when there were rows. *)
Definition process_events : M unit :=
  db_call OpCursor ;;;
  bound <- gets last_check ;;
  rows <- fetch_offline_events bound ;;
  match rows with
  | [] => ret tt
  | _ :: _ =>
      max_log_datetime <- submit_rows rows bound ;;
      modify (set_last_check max_log_datetime)
  end.

(** The [try] block of one iteration with its [except Exception] clause.
    Both [continue] statements are the ends of their branches. *)
Definition iteration_work (poll_interval : Z) : M unit :=
  try_except
    (signals_at_work ;;;
     healthy <- health_check ;;
     if negb (truthy healthy) then
       time_sleep PollSleep poll_interval
     else
       conn <- get_database_connection 3 5 ;;
       match conn with
       | None => time_sleep PollSleep poll_interval
       | Some _ =>
           with_conn process_events ;;;
           save_metrics
       end)
    is_Exception
    (fun e => ret tt).

(** The [finally] clause of an iteration: it sleeps and asks for [break]
    ([true]) on [KeyboardInterrupt]. *)
Definition sleep_or_break (poll_interval : Z) : M bool :=
  try_except
    (time_sleep PollSleep poll_interval ;;;
     ret false)
    is_KeyboardInterrupt
    (fun e => ret true).

(** One iteration: the [try] block, then the [finally] clause; yields [true]
    when the loop is left by [break]. *)
Definition iteration (poll_interval : Z) : M bool :=
  loop_finally (iteration_work poll_interval) (sleep_or_break poll_interval).

(** [while not shutdown_flag: body].  The flag is read first; the fuel
    bounds the number of iterations the model follows. *)
Fixpoint while_not_shutdown (fuel : nat) (body : M bool) : M unit :=
  fun s =>
    if shutdown_flag s then (Ret tt, s)
    else
      match fuel with
      | O => (Timeout, s)
      | S fuel' =>
          (stop <- body ;;
           if (stop : bool) then ret tt else while_not_shutdown fuel' body) s
      end.

Definition monitor_swiper_offline_events (poll_interval : Z) (fuel : nat) : M unit :=
  t <- now ;;
  modify (set_last_check (t - 60000000)) ;;;
  try_finally
    (while_not_shutdown fuel (iteration poll_interval))
    (modify (emit EvPoolShutdown)).

(** *** Entry point *)

(** The start-up of [main]: logs directory, logger, configuration. *)
Definition read_startup : M Z :=
  match startup env with
  | inl poll_interval => ret poll_interval
  | inr (BeforeLogger e) => raise e
  | inr (AfterLogger e) => raise e
  end.

(** Whether the start-up left the global [logger] unbound. *)
Definition logger_unbound : bool :=
  match startup env with
  | inr (BeforeLogger _) => true
  | _ => false
  end.

(** [logger.error(...)] and [logger.info(...)] at a place the run can reach
    with [logger] unbound: the [except] and [finally] clauses of [main] and
    the [except] clause of [save_metrics].  Everywhere else the program
    logs after line 474 has bound the name, and logging does nothing the
    model records. *)
Definition logger_call : M unit :=
  if logger_unbound then raise NameError_logger else ret tt.

(** [save_metrics()] as the [finally] clause of [main] calls it: the same
    function, whose [except] clause raises [NameError] when [logger] is
    unbound. *)
Definition save_metrics_at_exit : M unit :=
  snapshot <- gets metrics ;;
  _ <- now ;;
  modify (emit (EvSaveMetrics snapshot)) ;;;
  try_except
    write_metrics_file
    is_Exception
    (fun e => logger_call).

(** The two [signal.signal] calls come first and are not modelled. *)
Definition main (fuel : nat) : M unit :=
  try_finally
    (try_except
       (poll_interval <- read_startup ;;
        healthy <- health_check ;;
        if negb (truthy healthy) then ret tt
        else monitor_swiper_offline_events poll_interval fuel)
       is_Exception
       (fun e =>
          logger_call ;;;
          raise (SystemExit 1)))
    (save_metrics_at_exit ;;;
     logger_call).

End Program.

(** * Configuration

    The functions that run before the monitor: [validate_config],
    [read_config], [build_connection_string] and the start-up lines of
    [main].  They touch neither [metrics] nor [shutdown_flag]; they either
    yield a value or raise, and are embedded as functions into a sum. *)

(** [@dataclass class DatabaseConfig] *)
Record DatabaseConfig : Type := mkDatabaseConfig {
  driver : string;
  server : string;
  port : string;
  database : string;
  uid : string;
  pwd : string;
  tds_version : string
}.

(** [@dataclass class SlackConfig] *)
Record SlackConfig : Type := mkSlackConfig {
  bot_token : string;
  channel : string
}.

(** A [configparser.ConfigParser] after [config.read], as far as the script
    asks it.  The parser belongs to the outside world. *)
Record ConfigParser : Type := mkConfigParser {
  (** [config.get(section, option, fallback=None)]: the value, [None] when
      the section or the option is missing, or the exception the parser
      raises (an interpolation error) *)
  config_get : string -> string -> option string + exn;
  (** [config.getint(section, option, fallback=...)] short of the fallback:
      the integer, [None] when the section or the option is missing, or the
      exception ([ValueError] when the value is no integer) *)
  config_getint : string -> string -> option Z + exn
}.

(** What reading a configuration file gives. *)
Record ConfigFile : Type := mkConfigFile {
  (** [config.read(config_file)]: whether the list of files read is
      non-empty, or the exception of the parser (a malformed file) *)
  files_read : bool + exn;
  parsed : ConfigParser
}.

(** A Python [dict] with string keys, in insertion order. *)
Definition dict := list (string * string).

Fixpoint dict_get (d : dict) (key : string) : option string :=
  match d with
  | [] => None
  | (k, v) :: d' => if String.eqb k key then Some v else dict_get d' key
  end.

(** [d[key] = value] *)
Fixpoint dict_set (d : dict) (key value : string) : dict :=
  match d with
  | [] => [(key, value)]
  | (k, v) :: d' =>
      if String.eqb k key then (k, value) :: d' else (k, v) :: dict_set d' key value
  end.

(** [c.lower()] for an ASCII character, [s.lower()] for an ASCII string. *)
Definition lower_char (c : Ascii.ascii) : Ascii.ascii :=
  let n := Ascii.nat_of_ascii c in
  if ((65 <=? n)%nat && (n <=? 90)%nat)%bool then Ascii.ascii_of_nat (n + 32) else c.

Fixpoint lower (s : string) : string :=
  match s with
  | EmptyString => EmptyString
  | String c s' => String (lower_char c) (lower s')
  end.

(** The keys of [required_db_params] and of [required_slack_params], in the
    order of the literals. *)
Definition required_db_params : list string :=
  ["DRIVER"; "SERVER"; "PORT"; "DATABASE"; "UID"; "PWD"; "TDS_VERSION"].

Definition required_slack_params : list string := ["BOT_TOKEN"; "CHANNEL"].

(** [for param, param_type in params.items(): ...] of [validate_config],
    for the section [section]; [d] is the dictionary filled so far.  Both
    loops of the function have this body; [param_type] is [str], which
    leaves a string as it is. *)
Fixpoint collect_params (config : ConfigParser) (section : string)
  (params : list string) (d : dict) : dict + exn :=
  match params with
  | [] => inl d
  | param :: params' =>
      match config_get config section param with
      | inr e => inr e
      | inl None =>
          inr (PyException
                 ("ValueError: Missing required " ++ section ++ " parameter: " ++ param)%string)
      | inl (Some value) =>
          collect_params config section params' (dict_set d (lower param) value)
      end
  end.

(** [DatabaseConfig] called with the items of [d] as keyword arguments: every field must be a key of [d] and every key a
    field, else [TypeError]. *)
Definition make_DatabaseConfig (d : dict) : DatabaseConfig + exn :=
  match dict_get d "driver", dict_get d "server", dict_get d "port",
        dict_get d "database", dict_get d "uid", dict_get d "pwd",
        dict_get d "tds_version" with
  | Some dr, Some se, Some po, Some da, Some ui, Some pw, Some td =>
      if forallb (fun kv => existsb (String.eqb (fst kv))
                              ["driver"; "server"; "port"; "database"; "uid"; "pwd";
                               "tds_version"]) d
      then inl (mkDatabaseConfig dr se po da ui pw td)
      else inr (PyException "TypeError: __init__() got an unexpected keyword argument")
  | _, _, _, _, _, _, _ =>
      inr (PyException "TypeError: __init__() missing required positional arguments")
  end.

(** [SlackConfig] called with the items of [d] as keyword arguments. *)
Definition make_SlackConfig (d : dict) : SlackConfig + exn :=
  match dict_get d "bot_token", dict_get d "channel" with
  | Some bt, Some ch =>
      if forallb (fun kv => existsb (String.eqb (fst kv)) ["bot_token"; "channel"]) d
      then inl (mkSlackConfig bt ch)
      else inr (PyException "TypeError: __init__() got an unexpected keyword argument")
  | _, _ =>
      inr (PyException "TypeError: __init__() missing required positional arguments")
  end.

Definition validate_config (config : ConfigParser) : (DatabaseConfig * SlackConfig) + exn :=
  match collect_params config "DATABASE" required_db_params [] with
  | inr e => inr e
  | inl db_config =>
      match collect_params config "SLACK" required_slack_params [] with
      | inr e => inr e
      | inl slack_config =>
          match make_DatabaseConfig db_config with
          | inr e => inr e
          | inl db =>
              match make_SlackConfig slack_config with
              | inr e => inr e
              | inl slack => inl (db, slack)
              end
          end
      end
  end.

(** [read_config(config_file)].  [sys.exit(1)] raises [SystemExit(1)]; the
    [try] block turns every [Exception] of [validate_config] and of
    [getint] into it. *)
Definition read_config (file : ConfigFile) : (DatabaseConfig * SlackConfig * Z) + exn :=
  match files_read file with
  | inr e => inr e
  | inl false => inr (SystemExit 1)
  | inl true =>
      let attempt :=
        match validate_config (parsed file) with
        | inr e => inr e
        | inl (db_config, slack_config) =>
            match config_getint (parsed file) "GENERAL" "POLL_INTERVAL" with
            | inr e => inr e
            | inl None => inl (db_config, slack_config, 60)
            | inl (Some poll_interval) => inl (db_config, slack_config, poll_interval)
            end
        end in
      match attempt with
      | inr e => if is_Exception e then inr (SystemExit 1) else inr e
      | inl v => inl v
      end
  end.

Definition build_connection_string (config : DatabaseConfig) : string :=
  (("DRIVER={" ++ driver config ++ "};")
   ++ ("SERVER=" ++ server config ++ ";")
   ++ ("PORT=" ++ port config ++ ";")
   ++ ("DATABASE=" ++ database config ++ ";")
   ++ ("UID=" ++ uid config ++ ";")
   ++ ("PWD=" ++ pwd config ++ ";")
   ++ ("TDS_Version=" ++ tds_version config ++ ";"))%string.

(** The lines of [main] before the first health check: the logs directory
    and the logger ([None] when both succeed), then [read_config],
    [build_connection_string] and the Slack client, which is built from the
    token without any network traffic. *)
Record Startup : Type := mkStartup {
  logging_ready : option exn;
  config_file : ConfigFile
}.

Definition main_startup (st : Startup)
  : (string * SlackConfig * Z) + startup_failure :=
  match logging_ready st with
  | Some e => inr (BeforeLogger e)
  | None =>
      match read_config (config_file st) with
      | inr e => inr (AfterLogger e)
      | inl (db_config, slack_config, poll_interval) =>
          inl (build_connection_string db_config, slack_config, poll_interval)
      end
  end.

(** What the start-up oracle of an environment holds when the start-up is
    [st]: the poll interval, or the failure. *)
Definition startup_outcome (st : Startup) : Z + startup_failure :=
  match main_startup st with
  | inl (_, _, poll_interval) => inl poll_interval
  | inr f => inr f
  end.

(** * Specification vocabulary

    The predicates and relations the statements below are written with. *)

(** ** Relations between the state before and the state after *)

(** [m] never runs out of fuel and relates the state it starts from to the
    state it ends in, however it ends. *)
Definition keeps (P : State -> State -> Prop) {A} (m : M A) : Prop :=
  forall s r s', m s = (r, s') -> r <> Timeout /\ P s s'.

(** A component of the state is left as it was. *)
Definition same_on {X} (proj : State -> X) : State -> State -> Prop :=
  fun s s' => proj s' = proj s.

(** An invariant, as a relation between the states before and after. *)
Definition inv (I : State -> Prop) : State -> State -> Prop :=
  fun s s' => I s -> I s'.

(** From [s] to [s'] the trace grew by events that all satisfy [Q]. *)
Definition emits (Q : event -> Prop) : State -> State -> Prop :=
  fun s s' => exists evs, trace s' = trace s ++ evs /\ Forall Q evs.

(** ** The counters *)

Definition attempts_of (s : State) : Z := db_connection_attempts (metrics s).

Definition failures_of (s : State) : Z := db_connection_failures (metrics s).

Definition sent_of (s : State) : Z := notifications_sent (metrics s).

Definition failed_of (s : State) : Z := failed_notifications (metrics s).

(** ** Bounded retry *)

(** What one call of the retried operation leads to: the function returns
    [v]; or the call raises what the [except] clause catches; or it raises
    something else, which leaves the function. *)
Inductive attempt_outcome (A : Type) : Type :=
| Succeeded (v : A)
| Failed
| Escaped (e : exn).

Arguments Succeeded {A} v.
Arguments Failed {A}.
Arguments Escaped {A} e.

(** What the i-th call of [pyodbc.connect] leads to in
    [get_database_connection], whose clause is [except Exception]. *)
Definition connect_outcome (env : Env) (i : nat) : attempt_outcome (option Conn) :=
  match pyodbc_connect env i with
  | inl conn => Succeeded (Some conn)
  | inr e => if is_Exception e then Failed else Escaped e
  end.

(** What the i-th call of [chat_postMessage] leads to in
    [send_slack_notification], whose clause is [except SlackApiError]. *)
Definition post_outcome (env : Env) (i : nat) : attempt_outcome pybool :=
  match chat_postMessage env i with
  | None => Succeeded PyTrue
  | Some e => if is_SlackApiError e then Failed else Escaped e
  end.

(** Every way a retry loop of [n] rounds started at index [i] can end, with
    the number [p] of calls of the retried operation it made.  [calls] is the
    call counter of the operation and [outcome] its oracle, [exhausted] the
    value returned on exhaustion, [good] and [bad] the counters of successes
    (with its increment [step_good]) and of failures. *)
Definition retry_loop_post {A} (max_retries : Z) (calls : State -> nat)
  (outcome : nat -> attempt_outcome A) (exhausted : A)
  (good : State -> Z) (step_good : Z) (bad : State -> Z)
  (n : nat) (i : Z) (s : State) (r : result (option A)) (s' : State) (p : nat) : Prop :=
  match r with
  | Ret (Some v) =>
      exists q, p = S q /\
        (forall j, (j < q)%nat -> outcome (calls s + j)%nat = Failed) /\
        ((outcome (calls s + q)%nat = Succeeded v /\
          good s' = good s + step_good /\ bad s' = bad s) \/
         (outcome (calls s + q)%nat = Failed /\ v = exhausted /\
          max_retries - 1 <= i + Z.of_nat q /\
          good s' = good s /\ bad s' = bad s + 1))
  | Ret None =>
      p = n /\
      (forall j, (j < p)%nat ->
         outcome (calls s + j)%nat = Failed /\ i + Z.of_nat j < max_retries - 1) /\
      good s' = good s /\ bad s' = bad s
  | Raise e =>
      exists q, p = S q /\
        (forall j, (j < q)%nat -> outcome (calls s + j)%nat = Failed) /\
        good s' = good s /\ bad s' = bad s /\
        ((outcome (calls s + q)%nat = Failed /\ i + Z.of_nat q < max_retries - 1) \/
         outcome (calls s + q)%nat = Escaped e)
  | Timeout => False
  end.

(** ** Fetching *)

(** What the caller of [fetch_offline_events] can tell apart afterwards: the
    globals, the watermark, the pool and the trace (not the call counters of
    the oracles). *)
Definition observable (s : State) :=
  (metrics s, shutdown_flag s, last_check s, pool s, trace s).

Definition is_fetch (e : event) : Prop := exists bound rows, e = EvFetch bound rows.

(** The event, if it is a fetch, was made with the bound [w]. *)
Definition fetch_bound_is (w : datetime) (e : event) : Prop :=
  forall bound rows, e = EvFetch bound rows -> bound = w.

(** ** The watermark *)

(** A step that neither fetches nor moves the watermark. *)
Definition quiet : State -> State -> Prop :=
  fun s s' =>
    last_check s' = last_check s /\
    emits (fun e => ~ is_fetch e) s s'.

(** The value of the local [max_log_datetime] after the [for] loop over
    [rows], started at [w]. *)
Definition watermark_after (w : datetime) (rows : list Row) : datetime :=
  fold_left
    (fun m row => if log_datetime row >? m then log_datetime row else m)
    rows w.

(** The state after the submissions of the [for] loop. *)
Definition submitted (rows : list Row) (s : State) : State :=
  fold_left
    (fun s row => emit (EvSubmit (format_slack_message row))
                       (push_pool (format_slack_message row) s))
    rows s.

(** [m] is the maximum of [w] and of the timestamps of [rows]. *)
Definition is_max_from (w : datetime) (rows : list Row) (m : datetime) : Prop :=
  w <= m /\
  Forall (fun row => log_datetime row <= m) rows /\
  (m = w \/ Exists (fun row => log_datetime row = m) rows).

(** What one poll cycle does to the watermark, from the state [s] at its
    start to the state [s'] at its end: every fetch of the cycle was made
    with the watermark of [s] as its bound; the watermark either stays,
    or becomes the maximum, taken from the old watermark on, of the
    timestamps of a non-empty batch that a fetch of this cycle returned;
    and whatever batch a fetch of the cycle returned, the watermark at the
    end is the value the [for] loop computes from the old watermark over
    that batch. *)
Definition cycle_post : State -> State -> Prop :=
  fun s s' =>
    exists evs,
      trace s' = trace s ++ evs /\
      Forall (fetch_bound_is (last_check s)) evs /\
      (last_check s' = last_check s \/
       exists rows, rows <> [] /\
                    In (EvFetch (last_check s) rows) evs /\
                    is_max_from (last_check s) rows (last_check s')) /\
      (forall bound rows,
         In (EvFetch bound rows) evs ->
         last_check s' = watermark_after (last_check s) rows).

Definition watermark_le : State -> State -> Prop :=
  fun s s' => last_check s <= last_check s'.

(** ** Shutdown *)

(** A sleep of the monitor loop during which a termination signal
    arrived. *)
Definition signalled_poll_sleep (e : event) : Prop :=
  exists secs signum, e = EvSleep PollSleep secs (SleptSignalled signum).

(** No termination signal has arrived during a sleep of the monitor loop. *)
Definition unsignalled (s : State) : Prop :=
  Forall (fun e => ~ signalled_poll_sleep e) (trace s).

(** If a termination signal arrived during a sleep of the monitor loop, the
    flag is set and no health check has started since. *)
Definition shutdown_inv (s : State) : Prop :=
  (Exists signalled_poll_sleep (trace s) -> shutdown_flag s = true) /\
  (forall pre e post,
     trace s = pre ++ e :: post -> signalled_poll_sleep e -> ~ In EvHealthCheck post).

(** From a state without a signalled sleep, one iteration re-establishes
    the invariant: its health check comes before all its sleeps. *)
Definition arms : State -> State -> Prop :=
  fun s s' => unsignalled s -> shutdown_inv s'.

(** The number of calls of [save_metrics] recorded in a list of events. *)
Definition is_save (e : event) : bool :=
  match e with
  | EvSaveMetrics _ => true
  | _ => false
  end.

Definition save_calls (evs : list event) : nat := List.length (filter is_save evs).

(** How many recorded calls of [save_metrics] have not (yet) gone on to
    write the metrics file. *)
Definition unwritten (s : State) : Z :=
  Z.of_nat (save_calls (trace s)) - Z.of_nat (n_write s).

(** ** Configuration *)

(** The required parameters with their sections, in the order
    [validate_config] asks for them. *)
Definition all_required : list (string * string) :=
  map (fun param => ("DATABASE", param)) required_db_params
  ++ map (fun param => ("SLACK", param)) required_slack_params.

(** The parser answers every question of [validate_config] without
    raising. *)
Definition parser_answers (config : ConfigParser) : Prop :=
  forall section param,
    In (section, param) all_required ->
    exists o, config_get config section param = inl o.

(** Whether the character [c] occurs in [s]. *)
Fixpoint has_char (c : Ascii.ascii) (s : string) : bool :=
  match s with
  | EmptyString => false
  | String c' s' => if Ascii.eqb c c' then true else has_char c s'
  end.

(** The character [;]. *)
Definition semicolon : Ascii.ascii := Ascii.ascii_of_nat 59.

(** No field of the configuration holds a semicolon, the separator of the
    connection string. *)
Definition no_semicolon (config : DatabaseConfig) : bool :=
  forallb (fun field => negb (has_char semicolon field))
          [driver config; server config; port config; database config;
           uid config; pwd config; tds_version config].

(** ** The counters and the flag along a run *)

(** What the monitor thread does to the globals: the flag is never cleared,
    the connection counters never decrease and the notification counters
    are left alone. *)
Definition coordinator_step : State -> State -> Prop :=
  fun s s' =>
    (shutdown_flag s = true -> shutdown_flag s' = true) /\
    attempts_of s <= attempts_of s' /\
    failures_of s <= failures_of s' /\
    sent_of s' = sent_of s /\
    failed_of s' = failed_of s.

(** The record of the last successful health check and the number of
    readings of the clock. *)
Definition check_record (s : State) : option datetime * nat :=
  (last_successful_check (metrics s), n_now s).

(** A bound on the connecting done between two states: [db_connection_attempts]
    has grown by at most [a] and [pyodbc.connect] was called at most [c]
    times. *)
Definition effort_le (a : Z) (c : nat) : State -> State -> Prop :=
  fun s s' =>
    attempts_of s <= attempts_of s' <= attempts_of s + a /\
    (n_connect s <= n_connect s' <= n_connect s + c)%nat.

(** The events of the sleeps of the monitor loop in a list of events. *)
Definition poll_sleeps (evs : list event) : list event :=
  filter (fun e => match e with
                   | EvSleep PollSleep _ _ => true
                   | _ => false
                   end) evs.

(** * Sample data

    Rows and environments the examples run on.  Unless said otherwise the
    database accepts every connection (handle 7) and every statement, finds
    no row, Slack accepts every post, sleeps are undisturbed, the clock
    reads 0, the metrics file can be written and the poll interval is 60. *)

Definition row_skeeball : Row := mkRow "Skee-Ball 3" "jdoe" "Swiper placed Offline" 1500 0.

Definition row_airhockey : Row := mkRow "Air Hockey" "asmith" "Swiper placed Offline" 1200 2.

Definition sample_message : Message := format_slack_message row_skeeball.

(** A database the script cannot reach. *)
Definition env_db_down : Env :=
  mkEnv (fun _ => inr (PyException "08001: unable to connect"))
        (fun _ _ => None) (fun _ _ => []) (fun _ => None) (fun _ => Slept)
        (fun _ => 0) (fun _ => None) (fun _ => None) (inl 60).

(** A database that refuses the first connection and accepts the second. *)
Definition env_db_flaky : Env :=
  mkEnv (fun i => if (i =? 0)%nat then inr (PyException "08S01: link failure") else inl 7%nat)
        (fun _ _ => None) (fun _ _ => []) (fun _ => None) (fun _ => Slept)
        (fun _ => 0) (fun _ => None) (fun _ => None) (inl 60).

(** A database that accepts connections and fails every statement. *)
Definition env_query_fails : Env :=
  mkEnv (fun _ => inl 7%nat)
        (fun _ op => match op with
                     | OpExecute => Some (PyException "42000: syntax error")
                     | _ => None
                     end)
        (fun _ _ => []) (fun _ => None) (fun _ => Slept)
        (fun _ => 0) (fun _ => None) (fun _ => None) (inl 60).

(** A healthy database with two offline swipers, and a clock that reads
    1000, 1001, ... *)
Definition env_healthy : Env :=
  mkEnv (fun _ => inl 7%nat) (fun _ _ => None)
        (fun _ bound => filter (fun row => bound <? log_datetime row)
                               [row_airhockey; row_skeeball])
        (fun _ => None) (fun _ => Slept)
        (fun i => 1000 + Z.of_nat i) (fun _ => None) (fun _ => None) (inl 60).

(** Slack rejects every post with an API error. *)
Definition env_slack_rejecting : Env :=
  mkEnv (fun _ => inl 7%nat) (fun _ _ => None) (fun _ _ => [])
        (fun _ => Some (SlackApiError "channel_not_found")) (fun _ => Slept)
        (fun _ => 0) (fun _ => None) (fun _ => None) (inl 60).

(** Slack rejects two posts, then accepts the third. *)
Definition env_slack_flaky : Env :=
  mkEnv (fun _ => inl 7%nat) (fun _ _ => None) (fun _ _ => [])
        (fun i => if (i <? 2)%nat then Some (SlackApiError "ratelimited") else None)
        (fun _ => Slept) (fun _ => 0) (fun _ => None) (fun _ => None) (inl 60).

(** Slack cannot be reached: the HTTP layer raises, which is no
    [SlackApiError]. *)
Definition env_slack_unreachable : Env :=
  mkEnv (fun _ => inl 7%nat) (fun _ _ => None) (fun _ _ => [])
        (fun _ => Some (PyException "URLError: network is unreachable")) (fun _ => Slept)
        (fun _ => 0) (fun _ => None) (fun _ => None) (inl 60).

(** A quiet database, a clock that reads 1000, 1001, ... and a termination
    signal (SIGTERM, 15) that arrives during the first sleep of the monitor
    loop. *)
Definition env_sigterm_asleep : Env :=
  mkEnv (fun _ => inl 7%nat) (fun _ _ => None) (fun _ _ => [])
        (fun _ => None) (fun i => if (i =? 0)%nat then SleptSignalled 15 else Slept)
        (fun i => 1000 + Z.of_nat i) (fun _ => None) (fun _ => None) (inl 60).

(** A complete configuration, as a parser: every required parameter is
    present and the poll interval is 30. *)
Definition config_complete : ConfigParser :=
  mkConfigParser
    (fun section param =>
       if existsb (fun sp => (String.eqb (fst sp) section && String.eqb (snd sp) param)%bool)
                  all_required
       then inl (Some (section ++ "." ++ param)%string)
       else inl None)
    (fun _ _ => inl (Some 30)).

(** The same without [BOT_TOKEN] and without a poll interval. *)
Definition config_without_token : ConfigParser :=
  mkConfigParser
    (fun section param =>
       if String.eqb param "BOT_TOKEN" then inl None
       else config_get config_complete section param)
    (fun _ _ => inl None).

Definition sample_db_config : DatabaseConfig :=
  mkDatabaseConfig "FreeTDS" "10.0.0.5" "1433" "ecs7" "monitor" "s3cret" "7.4".

(** Every database call and every sleep is cut short by
    [KeyboardInterrupt]. *)
Definition env_interrupted : Env :=
  mkEnv (fun _ => inl 7%nat) (fun _ _ => Some KeyboardInterrupt) (fun _ _ => [])
        (fun _ => None) (fun _ => SleepInterrupted)
        (fun _ => 0) (fun _ => None) (fun _ => None) (inl 60).


(** The configuration file is missing or empty. *)
Definition env_no_config : Env :=
  mkEnv (fun _ => inl 7%nat) (fun _ _ => None) (fun _ _ => []) (fun _ => None)
        (fun _ => Slept) (fun _ => 0) (fun _ => None) (fun _ => None)
        (startup_outcome (mkStartup None (mkConfigFile (inl false) config_complete))).

(** The logs directory cannot be created: [mkdir] raises, with a complete
    configuration file that is never read. *)
Definition env_no_logs_dir : Env :=
  mkEnv (fun _ => inl 7%nat) (fun _ _ => None) (fun _ _ => []) (fun _ => None)
        (fun _ => Slept) (fun _ => 0) (fun _ => None) (fun _ => None)
        (startup_outcome
           (mkStartup (Some (PyException "PermissionError: [Errno 13] Permission denied: 'logs'"))
                      (mkConfigFile (inl true) config_complete))).

(** The configuration file lacks [BOT_TOKEN]. *)
Definition startup_without_token : Startup :=
  mkStartup None (mkConfigFile (inl true) config_without_token).

Definition env_without_token : Env :=
  mkEnv (fun _ => inl 7%nat) (fun _ _ => None) (fun _ _ => []) (fun _ => None)
        (fun _ => Slept) (fun _ => 0) (fun _ => None) (fun _ => None)
        (startup_outcome startup_without_token).

(** The first connection is refused and a termination signal (SIGTERM)
    arrives during the retry sleep that follows; the second connection is
    accepted. *)
Definition env_sigterm_at_startup : Env :=
  mkEnv (fun i => if (i =? 0)%nat then inr (PyException "08S01: link failure") else inl 7%nat)
        (fun _ _ => None) (fun _ _ => []) (fun _ => None)
        (fun i => if (i =? 0)%nat then SleptSignalled 15 else Slept)
        (fun i => 1000 + Z.of_nat i) (fun _ => None) (fun _ => None) (inl 60).

(** * Reasoning principles *)

(** ** Running a computation step by step *)

Lemma bind_inv {A B} (m : M A) (k : A -> M B) s r s' :
  bind m k s = (r, s') ->
  (exists a s1, m s = (Ret a, s1) /\ k a s1 = (r, s')) \/
  (exists e, m s = (Raise e, s') /\ r = Raise e) \/
  (m s = (Timeout, s') /\ r = Timeout).
Proof.
  unfold bind. destruct (m s) as [[a | e |] s1]; intros H.
  - left. eauto.
  - right. left. inversion H; subst. eauto.
  - right. right. inversion H; subst. auto.
Qed.

Lemma bind_ret_run {A B} (m : M A) (k : A -> M B) s a s1 :
  m s = (Ret a, s1) -> bind m k s = k a s1.
Proof. unfold bind. intros ->. reflexivity. Qed.

Lemma bind_raise_run {A B} (m : M A) (k : A -> M B) s e s1 :
  m s = (Raise e, s1) -> bind m k s = (Raise e, s1).
Proof. unfold bind. intros ->. reflexivity. Qed.

Lemma bind_timeout_run {A B} (m : M A) (k : A -> M B) s s1 :
  m s = (Timeout, s1) -> bind m k s = (Timeout, s1).
Proof. unfold bind. intros ->. reflexivity. Qed.

(** Replaces the first computation of a sequence by its known result. *)
Ltac run_with E :=
  repeat first [ erewrite (bind_ret_run _ _ _ _ _ E)
               | erewrite (bind_raise_run _ _ _ _ _ E)
               | erewrite (bind_timeout_run _ _ _ _ E) ].

Ltac run_with_in E H :=
  repeat first [ erewrite (bind_ret_run _ _ _ _ _ E) in H
               | erewrite (bind_raise_run _ _ _ _ _ E) in H
               | erewrite (bind_timeout_run _ _ _ _ E) in H ].

Lemma bind_modify_run {B} (f : State -> State) (k : unit -> M B) s :
  bind (modify f) k s = k tt (f s).
Proof. reflexivity. Qed.

Lemma bind_gets_run {A B} (f : State -> A) (k : A -> M B) s :
  bind (gets f) k s = k (f s) s.
Proof. reflexivity. Qed.

(** ** Relations every step of a computation maintains *)

Section Keeps.

Context (P : State -> State -> Prop) {P_pre : PreOrder P}.

Let P_refl : forall s, P s s := @PreOrder_Reflexive _ _ P_pre.
Let P_trans : forall s1 s2 s3, P s1 s2 -> P s2 s3 -> P s1 s3 :=
  @PreOrder_Transitive _ _ P_pre.

Lemma keeps_ret {A} (a : A) : keeps P (ret a).
Proof. intros s r s' H. inversion H; subst. split; [discriminate | apply P_refl]. Qed.

Lemma keeps_raise {A} (e : exn) : keeps P (@raise A e).
Proof. intros s r s' H. inversion H; subst. split; [discriminate | apply P_refl]. Qed.

Lemma keeps_gets {A} (f : State -> A) : keeps P (gets f).
Proof. intros s r s' H. inversion H; subst. split; [discriminate | apply P_refl]. Qed.

Lemma keeps_modify (f : State -> State) :
  (forall s, P s (f s)) -> keeps P (modify f).
Proof. intros Hf s r s' H. inversion H; subst. split; [discriminate | apply Hf]. Qed.

Lemma keeps_bind {A B} (m : M A) (k : A -> M B) :
  keeps P m -> (forall a, keeps P (k a)) -> keeps P (bind m k).
Proof.
  intros Hm Hk s r s' H.
  destruct (bind_inv _ _ _ _ _ H) as [(a & s1 & E1 & E2) | [(e & E1 & ->) | (E1 & ->)]].
  - destruct (Hm _ _ _ E1) as [_ H1]. destruct (Hk _ _ _ _ E2) as [H2 H3].
    split; [assumption | eapply P_trans; eassumption].
  - destruct (Hm _ _ _ E1) as [_ H1]. split; [discriminate | assumption].
  - destruct (Hm _ _ _ E1) as [H1 _]. congruence.
Qed.

Lemma keeps_try_except {A} (body : M A) catches handler :
  keeps P body -> (forall e, keeps P (handler e)) -> keeps P (try_except body catches handler).
Proof.
  intros Hb Hh s r s' H. unfold try_except in H.
  destruct (body s) as [[a | e |] s1] eqn:E.
  - inversion H; subst. eapply Hb; eassumption.
  - destruct (Hb _ _ _ E) as [_ H1]. destruct (catches e).
    + destruct (Hh _ _ _ _ H) as [H2 H3].
      split; [assumption | eapply P_trans; eassumption].
    + inversion H; subst. split; [discriminate | assumption].
  - destruct (Hb _ _ _ E) as [H1 _]. congruence.
Qed.

Lemma keeps_try_finally {A} (body : M A) (fin : M unit) :
  keeps P body -> keeps P fin -> keeps P (try_finally body fin).
Proof.
  intros Hb Hf s r s' H. unfold try_finally in H.
  destruct (body s) as [rb s1] eqn:E. destruct (Hb _ _ _ E) as [Hrb H1].
  destruct (fin s1) as [rf s2] eqn:F. destruct (Hf _ _ _ F) as [Hrf H2].
  assert (P s s2) by (eapply P_trans; eassumption).
  destruct rb; try congruence; destruct rf; try congruence;
    inversion H; subst; (split; [discriminate | assumption]).
Qed.

Lemma keeps_for_range {A} (body : Z -> M (option A)) :
  (forall i, keeps P (body i)) -> forall n i, keeps P (for_range n i body).
Proof.
  intros Hb. induction n as [| n IH]; intros i; simpl.
  - apply keeps_ret.
  - apply keeps_bind; [apply Hb |].
    intros [v |]; [apply keeps_ret | apply IH].
Qed.

Lemma keeps_run {A} (m : M A) :
  keeps P m -> forall s, fst (m s) <> Timeout /\ P s (snd (m s)).
Proof. intros Hm s. apply Hm. apply surjective_pairing. Qed.

Lemma keeps_loop_finally {A} (body : M A) (fin : M bool) :
  keeps P body -> keeps P fin -> keeps P (loop_finally body fin).
Proof.
  intros Hb Hf s r s' H. unfold loop_finally in H.
  destruct (body s) as [rb s1] eqn:E. destruct (Hb _ _ _ E) as [Hrb H1].
  destruct (fin s1) as [rf s2] eqn:F. destruct (Hf _ _ _ F) as [Hrf H2].
  assert (P s s2) by (eapply P_trans; eassumption).
  destruct rb; try congruence; destruct rf as [[|] | |]; try congruence;
    inversion H; subst; (split; [discriminate | assumption]).
Qed.

Lemma keeps_submit_rows :
  (forall m, keeps P (pool_submit m)) ->
  forall rows t, keeps P (submit_rows rows t).
Proof.
  intros Hs. induction rows as [| row rows IH]; intros t; simpl.
  - apply keeps_ret.
  - apply keeps_bind; [apply Hs | intros _; apply IH].
Qed.

(** The loop can run out of fuel, but every state it reaches is related to
    the one it started from. *)
Lemma while_not_shutdown_rel (body : M bool) :
  keeps P body ->
  forall fuel s, P s (snd (while_not_shutdown fuel body s)).
Proof.
  intros Hb. induction fuel as [| fuel IH]; intros s; simpl.
  - destruct (shutdown_flag s); apply P_refl.
  - destruct (shutdown_flag s); [apply P_refl |].
    unfold bind. destruct (body s) as [[stop | e |] s1] eqn:E;
      destruct (Hb _ _ _ E) as [Hr H1]; simpl; try assumption.
    destruct stop; simpl; [assumption |].
    eapply P_trans; [eassumption | apply IH].
Qed.

End Keeps.

Lemma keeps_weaken (P Q : State -> State -> Prop) {A} (m : M A) :
  (forall s s', P s s' -> Q s s') -> keeps P m -> keeps Q m.
Proof. intros HPQ Hm s r s' H. destruct (Hm _ _ _ H). auto. Qed.

(** ** Composing different relations

    A computation that maintains [P] followed by one that maintains [Q]
    maintains any [R] that contains [P] and the composition of [P] and
    [Q]. *)

Section KeepsSeq.

Variables P Q R : State -> State -> Prop.
Hypothesis PQ_R : forall s1 s2 s3, P s1 s2 -> Q s2 s3 -> R s1 s3.
Hypothesis P_R : forall s1 s2, P s1 s2 -> R s1 s2.

Lemma keeps_seq {A B} (m : M A) (k : A -> M B) :
  keeps P m -> (forall a, keeps Q (k a)) -> keeps R (bind m k).
Proof.
  intros Hm Hk s r s' H.
  destruct (bind_inv _ _ _ _ _ H) as [(a & s1 & E1 & E2) | [(e & E1 & ->) | (E1 & ->)]];
    destruct (Hm _ _ _ E1) as [H0 H1].
  - destruct (Hk _ _ _ _ E2) as [H2 H3]. split; [assumption | eauto].
  - split; [discriminate | auto].
  - congruence.
Qed.

Lemma keeps_try_except_seq {A} (body : M A) catches handler :
  keeps P body -> (forall e, keeps Q (handler e)) ->
  keeps R (try_except body catches handler).
Proof.
  intros Hb Hh s r s' H. unfold try_except in H.
  destruct (body s) as [[a | e |] s1] eqn:E; destruct (Hb _ _ _ E) as [H0 H1].
  - inversion H; subst. split; [discriminate | auto].
  - destruct (catches e).
    + destruct (Hh _ _ _ _ H) as [H2 H3]. split; [assumption | eauto].
    + inversion H; subst. split; [discriminate | auto].
  - congruence.
Qed.

Lemma keeps_try_finally_seq {A} (body : M A) (fin : M unit) :
  keeps P body -> keeps Q fin -> keeps R (try_finally body fin).
Proof.
  intros Hb Hf s r s' H. unfold try_finally in H.
  destruct (body s) as [rb s1] eqn:E. destruct (Hb _ _ _ E) as [Hrb H1].
  destruct (fin s1) as [rf s2] eqn:F. destruct (Hf _ _ _ F) as [Hrf H2].
  assert (R s s2) by eauto.
  destruct rb; try congruence; destruct rf; try congruence;
    inversion H; subst; (split; [discriminate | assumption]).
Qed.

Lemma keeps_loop_finally_seq {A} (body : M A) (fin : M bool) :
  keeps P body -> keeps Q fin -> keeps R (loop_finally body fin).
Proof.
  intros Hb Hf s r s' H. unfold loop_finally in H.
  destruct (body s) as [rb s1] eqn:E. destruct (Hb _ _ _ E) as [Hrb H1].
  destruct (fin s1) as [rf s2] eqn:F. destruct (Hf _ _ _ F) as [Hrf H2].
  assert (R s s2) by eauto.
  destruct rb; try congruence; destruct rf as [[|] | |]; try congruence;
    inversion H; subst; (split; [discriminate | assumption]).
Qed.

End KeepsSeq.

(** Unfolds the program down to the primitive state updates. *)
Create HintDb keeps discriminated.

Ltac keeps_step :=
  lazymatch goal with
  | |- PreOrder _ => exact _
  | |- forall _, keeps _ _ => intros ?; cbv beta
  | |- keeps _ (bind _ _) => apply keeps_bind
  | |- keeps _ (ret _) => apply keeps_ret
  | |- keeps _ (raise _) => apply keeps_raise
  | |- keeps _ (gets _) => apply keeps_gets
  | |- keeps _ (modify _) => apply keeps_modify
  | |- keeps _ (try_except _ _ _) => apply keeps_try_except
  | |- keeps _ (try_finally _ _) => apply keeps_try_finally
  | |- keeps _ (with_conn _ _) => unfold with_conn
  | |- keeps _ (loop_finally _ _) => apply keeps_loop_finally
  | |- keeps _ (for_range _ _ _) => apply keeps_for_range
  | |- keeps _ (submit_rows _ _) => apply keeps_submit_rows
  | |- keeps _ (match ?x with _ => _ end) => destruct x
  end.

(** Walks through a program down to its primitive state updates, which are
    left as goals.  A function of the program is unfolded when it is reached,
    unless a lemma of the database [keeps] applies to it. *)
Ltac head_of t :=
  lazymatch t with
  | ?f _ => head_of f
  | _ => t
  end.

Ltac keeps_unfold :=
  lazymatch goal with
  | |- keeps _ ?m => let h := head_of m in unfold h
  end.

Ltac keeps_prog :=
  repeat first [ solve [auto 1 with keeps nocore]
               | keeps_step
               | keeps_unfold ].

(** ** Components of the state an operation leaves alone *)

#[global] Instance same_on_PreOrder {X} (proj : State -> X) : PreOrder (same_on proj).
Proof.
  split.
  - intros s. reflexivity.
  - intros s1 s2 s3 H1 H2. unfold same_on in *. congruence.
Qed.

(** ** Bounded retry

    [get_database_connection] and [send_slack_notification] run the same
    loop: try, and on a failure of the class the [except] clause names
    either sleep and go on, or, at the last index, count the failure and
    return.  The section derives what such a loop does from what one pass
    through its body does. *)

Lemma shift_below (Q : nat -> Prop) (q : nat) :
  Q O -> (forall j, (j < q)%nat -> Q (S j)) -> forall j, (j < S q)%nat -> Q j.
Proof. intros H0 HS [| j] Hj; [assumption | apply HS; lia]. Qed.

Section Retry.

Context {A : Type}.
Variable body : Z -> M (option A).
Variable max_retries : Z.
(** the call counter of the retried operation and its oracle *)
Variable calls : State -> nat.
Variable outcome : nat -> attempt_outcome A.
(** the value returned on exhaustion *)
Variable exhausted : A.
(** the counter of successes with its increment, the counter of failures *)
Variable good : State -> Z.
Variable step_good : Z.
Variable bad : State -> Z.

Hypothesis body_spec :
  forall i s r s', body i s = (r, s') ->
    calls s' = S (calls s) /\
    match outcome (calls s) with
    | Succeeded v =>
        r = Ret (Some v) /\ good s' = good s + step_good /\ bad s' = bad s
    | Failed =>
        if i <? max_retries - 1 then
          (r = Ret None \/ exists e, r = Raise e) /\ good s' = good s /\ bad s' = bad s
        else
          r = Ret (Some exhausted) /\ good s' = good s /\ bad s' = bad s + 1
    | Escaped e =>
        r = Raise e /\ good s' = good s /\ bad s' = bad s
    end.

Lemma retry_loop_cases :
  forall n i s r s',
    for_range n i body s = (r, s') ->
    exists p, calls s' = (calls s + p)%nat /\ (p <= n)%nat /\
              retry_loop_post max_retries calls outcome exhausted good step_good bad
                n i s r s' p.
Proof.
  induction n as [| n IH]; intros i s r s' H; simpl in H.
  - inversion H; subst. exists O. repeat split; try lia.
  - destruct (bind_inv _ _ _ _ _ H) as [(a & s1 & E1 & E2) | [(e & E1 & ->) | (E1 & ->)]];
      destruct (body_spec _ _ _ _ E1) as [Hc Ho].
    + destruct a as [v |].
      * (* the body returned *)
        inversion E2; subst. exists 1%nat. repeat split; try lia.
        exists O. rewrite Nat.add_0_r. split; [reflexivity |]. split; [intros j Hj; lia |].
        destruct (outcome (calls s)) as [v0 | | e0].
        -- destruct Ho as (Hr & Hg & Hb). inversion Hr; subst. left. auto.
        -- destruct (i <? max_retries - 1) eqn:L.
           ++ destruct Ho as ([Hr | [e Hr]] & _); discriminate.
           ++ destruct Ho as (Hr & Hg & Hb). inversion Hr; subst.
              right. repeat split; auto. apply Z.ltb_ge in L. lia.
        -- destruct Ho as (Hr & _). discriminate.
      * (* the body went on to the next index *)
        assert (O1 : outcome (calls s) = Failed /\ (i <? max_retries - 1) = true /\
                     good s1 = good s /\ bad s1 = bad s).
        { destruct (outcome (calls s)) as [v0 | | e0].
          - destruct Ho as (Hr & _). discriminate.
          - destruct (i <? max_retries - 1).
            + destruct Ho as (_ & Hg & Hb). auto.
            + destruct Ho as (Hr & _). discriminate.
          - destruct Ho as (Hr & _). discriminate. }
        destruct O1 as (O1 & L & Hg1 & Hb1). apply Z.ltb_lt in L.
        destruct (IH _ _ _ _ E2) as (p & Hp & Hle & Hcase).
        assert (Sh : forall j, (calls s1 + j = calls s + S j)%nat) by (intros; lia).
        exists (S p). split; [lia |]. split; [lia |].
        unfold retry_loop_post in *.
        destruct r as [[v |] | e |].
        -- destruct Hcase as (q & -> & Hq & Hlast).
           exists (S q). split; [reflexivity |].
           split.
           { apply shift_below; [rewrite Nat.add_0_r; exact O1 |].
             intros j Hj. rewrite <- Sh. auto. }
           rewrite <- Sh.
           destruct Hlast as [(Ho1 & Hg & Hb) | (Ho1 & Hv & Hi & Hg & Hb)].
           ++ left. repeat split; auto; congruence.
           ++ right. repeat split; auto; try congruence. lia.
        -- destruct Hcase as (-> & Hq & Hg & Hb).
           split; [reflexivity |]. split; [| split; congruence].
           apply shift_below.
           ++ rewrite Nat.add_0_r. split; [exact O1 | lia].
           ++ intros j Hj. rewrite <- Sh. destruct (Hq j Hj) as [Hq1 Hq2].
              split; [assumption | lia].
        -- destruct Hcase as (q & -> & Hq & Hg & Hb & Hlast).
           exists (S q). split; [reflexivity |].
           split.
           { apply shift_below; [rewrite Nat.add_0_r; exact O1 |].
             intros j Hj. rewrite <- Sh. auto. }
           split; [congruence |]. split; [congruence |].
           rewrite <- Sh.
           destruct Hlast as [(Ho1 & Hi) | Ho1]; [left; split; [assumption | lia] | right; assumption].
        -- contradiction.
    + (* the body raised *)
      exists 1%nat. split; [lia |]. split; [lia |]. simpl.
      exists O. rewrite Nat.add_0_r. split; [reflexivity |]. split; [intros j Hj; lia |].
      destruct (outcome (calls s)) as [v0 | | e0].
      * destruct Ho as (Hr & _). discriminate.
      * destruct (i <? max_retries - 1) eqn:L.
        -- destruct Ho as (_ & Hg & Hb). apply Z.ltb_lt in L.
           repeat split; auto. left. split; [reflexivity | lia].
        -- destruct Ho as (Hr & _). discriminate.
      * destruct Ho as (Hr & Hg & Hb). inversion Hr; subst. auto.
    + (* the body cannot run out of fuel *)
      exfalso. destruct (outcome (calls s)) as [v0 | | e0].
      * destruct Ho as (Hr & _). discriminate.
      * destruct (i <? max_retries - 1).
        -- destruct Ho as ([Hr | [e Hr]] & _); discriminate.
        -- destruct Ho as (Hr & _). discriminate.
      * destruct Ho as (Hr & _). discriminate.
Qed.

End Retry.

(** ** [main] and the global [logger]

    Once line 474 has bound [logger], the two calls of it in [main] and the
    one in [save_metrics] do nothing the model records; when the start-up
    failed before, the run is short and ends in [NameError]. *)

Lemma logger_bound_started env poll_interval :
  startup env = inl poll_interval -> logger_unbound env = false.
Proof. unfold logger_unbound. intros ->. reflexivity. Qed.

Lemma logger_bound_after env e :
  startup env = inr (AfterLogger e) -> logger_unbound env = false.
Proof. unfold logger_unbound. intros ->. reflexivity. Qed.

Lemma save_metrics_at_exit_run env s :
  save_metrics_at_exit env s =
  let s1 := tick_write (emit (EvSaveMetrics (metrics s)) (tick_now s)) in
  match file_write env (n_write s) with
  | None => (Ret tt, s1)
  | Some e => if is_Exception e then logger_call env s1 else (Raise e, s1)
  end.
Proof.
  unfold save_metrics_at_exit, now, try_except, write_metrics_file,
    bind, gets, modify, ret, raise.
  cbn.
  destruct (file_write env (n_write s)) as [e |]; cbn; [destruct (is_Exception e) |];
    reflexivity.
Qed.

Lemma save_metrics_at_exit_bound env s :
  logger_unbound env = false -> save_metrics_at_exit env s = save_metrics env s.
Proof.
  intros L. unfold save_metrics_at_exit, save_metrics, logger_call. rewrite L.
  reflexivity.
Qed.

Lemma main_logger_bound env fuel s :
  logger_unbound env = false ->
  main env fuel s
  = try_finally
      (try_except
         (poll_interval <- read_startup env ;;
          healthy <- health_check env ;;
          if negb (truthy healthy) then ret tt
          else monitor_swiper_offline_events env poll_interval fuel)
         is_Exception
         (fun e => raise (SystemExit 1)))
      (save_metrics env) s.
Proof.
  intros L. unfold main, logger_call. rewrite L.
  set (body := poll_interval <- read_startup env ;;
               healthy <- health_check env ;;
               if negb (truthy healthy) then ret tt
               else monitor_swiper_offline_events env poll_interval fuel).
  unfold try_finally.
  change (try_except body is_Exception (fun _ => ret tt ;;; raise (SystemExit 1)) s)
    with (try_except body is_Exception (fun _ => raise (SystemExit 1)) s).
  destruct (try_except body is_Exception (fun _ => raise (SystemExit 1)) s) as [rb sb].
  unfold bind. rewrite (save_metrics_at_exit_bound env sb L).
  destruct (save_metrics env sb) as [[[] | e |] ss]; destruct rb; reflexivity.
Qed.

Lemma main_logger_unbound env fuel s e :
  startup env = inr (BeforeLogger e) ->
  main env fuel s
  = (Raise match file_write env (n_write s) with
           | Some ew => if is_Exception ew then NameError_logger else ew
           | None => NameError_logger
           end,
     tick_write (emit (EvSaveMetrics (metrics s)) (tick_now s))).
Proof.
  intros Hs.
  assert (L : logger_unbound env = true) by (unfold logger_unbound; rewrite Hs; reflexivity).
  assert (F : (save_metrics_at_exit env ;;; logger_call env) s
              = (Raise match file_write env (n_write s) with
                       | Some ew => if is_Exception ew then NameError_logger else ew
                       | None => NameError_logger
                       end,
                 tick_write (emit (EvSaveMetrics (metrics s)) (tick_now s)))).
  { unfold bind. rewrite save_metrics_at_exit_run. unfold logger_call. rewrite L.
    cbv zeta.
    destruct (file_write env (n_write s)) as [ew |]; [destruct (is_Exception ew) |];
      reflexivity. }
  unfold main, try_finally, try_except, read_startup.
  rewrite Hs. unfold bind at 1, raise at 1.
  destruct (is_Exception e).
  - unfold bind at 1, logger_call at 1. rewrite L. unfold raise at 1.
    rewrite F. reflexivity.
  - rewrite F. reflexivity.
Qed.

(** ** A relation along a whole run *)

Lemma now_run env s : now env s = (Ret (clock env (n_now s)), tick_now s).
Proof. reflexivity. Qed.

Lemma save_metrics_run env s :
  save_metrics env s =
  let s1 := tick_write (emit (EvSaveMetrics (metrics s)) (tick_now s)) in
  match file_write env (n_write s) with
  | None => (Ret tt, s1)
  | Some e => if is_Exception e then (Ret tt, s1) else (Raise e, s1)
  end.
Proof.
  unfold save_metrics. rewrite bind_gets_run.
  run_with (now_run env s). rewrite bind_modify_run.
  unfold try_except, write_metrics_file. rewrite bind_gets_run, bind_modify_run.
  cbn.
  destruct (file_write env (n_write s)) as [e |]; cbn; [destruct (is_Exception e) |];
    reflexivity.
Qed.

(** What holds between the start and the end of [main] for a relation that
    every part of it maintains. *)
Section WholeRun.

Context (P : State -> State -> Prop) {P_pre : PreOrder P} (env : Env).
Hypothesis P_health : keeps P (health_check env).
Hypothesis P_iteration : forall poll_interval, keeps P (iteration env poll_interval).
Hypothesis P_save : keeps P (save_metrics env).
Hypothesis P_now : forall s, P s (tick_now s).
Hypothesis P_last_check : forall t s, P s (set_last_check t s).
Hypothesis P_pool : forall s, P s (emit EvPoolShutdown s).

Lemma monitor_rel poll_interval fuel s :
  P s (snd (monitor_swiper_offline_events env poll_interval fuel s)).
Proof.
  unfold monitor_swiper_offline_events.
  run_with (now_run env s). rewrite bind_modify_run. unfold try_finally.
  set (s0 := set_last_check (clock env (n_now s) - 60000000) (tick_now s)).
  assert (H0 : P s s0) by (transitivity (tick_now s); [apply P_now | apply P_last_check]).
  pose proof (while_not_shutdown_rel P _ (P_iteration poll_interval) fuel s0) as Hw.
  destruct (while_not_shutdown fuel (iteration env poll_interval) s0) as [rw sw].
  cbn [snd] in Hw.
  assert (P s sw) by (transitivity s0; assumption).
  assert (P s (emit EvPoolShutdown sw)) by (transitivity sw; [assumption | apply P_pool]).
  destruct rw; cbn; assumption.
Qed.

Lemma main_rel fuel s : P s (snd (main env fuel s)).
Proof.
  destruct (logger_unbound env) eqn:L.
  { (* the start-up failed before the logger was bound *)
    unfold logger_unbound in L.
    destruct (startup env) as [p | [e | e]] eqn:Hs; try discriminate.
    rewrite (main_logger_unbound _ _ _ _ Hs). cbn [snd].
    destruct (keeps_run P _ P_save s) as [_ Hk]. rewrite save_metrics_run in Hk.
    cbv zeta in Hk.
    destruct (file_write env (n_write s)) as [ew |]; [destruct (is_Exception ew) |];
      exact Hk. }
  rewrite (main_logger_bound _ _ _ L). unfold try_finally.
  match goal with
  | |- context [try_except ?body is_Exception ?h s] =>
      assert (Hb : P s (snd (try_except body is_Exception h s)))
  end.
  { unfold try_except, read_startup.
    assert (Hraise : forall e : exn,
               P s (snd (let (r, s') := bind (@raise Z e)
                                          (fun poll_interval =>
                                             healthy <- health_check env ;;
                                             if negb (truthy healthy) then ret tt
                                             else monitor_swiper_offline_events
                                                    env poll_interval fuel) s in
                         match r with
                         | Raise e0 =>
                             if is_Exception e0 then raise (SystemExit 1) s' else (Raise e0, s')
                         | _ => (r, s')
                         end))).
    { intros e. unfold bind at 1, raise at 1.
      destruct (is_Exception e); cbn; reflexivity. }
    destruct (startup env) as [poll_interval | [e | e]]; [| apply Hraise | apply Hraise].
    assert (B : forall k : Z -> M unit, bind (ret poll_interval) k s = k poll_interval s)
      by reflexivity.
    rewrite B.
    destruct (health_check env s) as [rh sh] eqn:Hc.
    destruct (P_health _ _ _ Hc) as [Hr Hh].
    destruct rh as [healthy | e |]; [| | congruence]; run_with Hc.
    + destruct (negb (truthy healthy)); [exact Hh |].
      pose proof (monitor_rel poll_interval fuel sh) as Hm.
      destruct (monitor_swiper_offline_events env poll_interval fuel sh) as [rm sm].
      cbn [snd] in Hm. assert (P s sm) by (transitivity sh; assumption).
      destruct rm as [a | e |]; [| destruct (is_Exception e) |]; cbn; assumption.
    + destruct (is_Exception e); cbn; exact Hh. }
  match goal with
  | |- context [try_except ?body is_Exception ?h s] =>
      destruct (try_except body is_Exception h s) as [rb sb]
  end.
  cbn [snd] in Hb.
  destruct (keeps_run P _ P_save sb) as [_ Hs].
  destruct (save_metrics env sb) as [rs ss]. cbn [snd] in Hs.
  assert (P s ss) by (transitivity sb; assumption).
  destruct rb; [| | exact Hb]; destruct rs; cbn; assumption.
Qed.

End WholeRun.

(** * The connect operation *)

(** C10.  Called with [max_retries <= 0], [get_database_connection] calls
    [pyodbc.connect] not even once, still adds one to
    [db_connection_attempts], leaves [db_connection_failures] as it was and
    returns [None]. *)
Theorem connect_without_retries env max_retries retry_delay s :
  max_retries <= 0 ->
  let (r, s') := get_database_connection env max_retries retry_delay s in
  r = Ret None /\
  n_connect s' = n_connect s /\
  attempts_of s' = attempts_of s + 1 /\
  failures_of s' = failures_of s.
Proof.
  intros H. unfold get_database_connection.
  replace (Z.to_nat max_retries) with O by lia.
  cbn. repeat split.
Qed.

Lemma connect_without_retries_witness :
  0 <= 0 /\
  let (r, s') := get_database_connection env_db_down 0 5 state_init in
  r = Ret None /\
  n_connect s' = n_connect state_init /\
  attempts_of s' = attempts_of state_init + 1 /\
  failures_of s' = failures_of state_init.
Proof. split; [lia | apply (connect_without_retries env_db_down 0 5 state_init); lia]. Defined.

Lemma connection_attempt_spec env max_retries retry_delay :
  forall i s r s',
    connection_attempt env max_retries retry_delay i s = (r, s') ->
    n_connect s' = S (n_connect s) /\
    match connect_outcome env (n_connect s) with
    | Succeeded v =>
        r = Ret (Some v) /\ 0 = 0 + 0 /\ failures_of s' = failures_of s
    | Failed =>
        if i <? max_retries - 1 then
          (r = Ret None \/ exists e, r = Raise e) /\ 0 = 0 /\ failures_of s' = failures_of s
        else
          r = Ret (Some None) /\ 0 = 0 /\ failures_of s' = failures_of s + 1
    | Escaped e =>
        r = Raise e /\ 0 = 0 /\ failures_of s' = failures_of s
    end.
Proof.
  intros i s r s' H. unfold connect_outcome.
  unfold connection_attempt, try_except, connect, time_sleep, signal_handler,
    bind, gets, modify, ret, raise in H.
  destruct (pyodbc_connect env (n_connect s)) as [c | e]; simpl in H.
  - inversion H; subst. simpl. auto.
  - destruct (is_Exception e).
    + destruct (i <? max_retries - 1).
      * destruct (sleep_refused retry_delay); cbn in H;
          [| destruct (sleep_result env (n_sleep s))];
          inversion H; subst; simpl; eauto 6.
      * inversion H; subst. simpl. auto.
    + inversion H; subst. simpl. auto.
Qed.

(** C5.  Take any call of [get_database_connection] and let [performed] be
    the number of calls of [pyodbc.connect] it made.  If it made all
    [max_retries >= 1] of them and each raised an [Exception], the call adds
    exactly 1 to [db_connection_failures] and returns [None] (it does not
    raise).  If one of the attempts it made returned a connection, the call
    leaves [db_connection_failures] as it was and returns that connection. *)
Theorem connect_failure_accounting env max_retries retry_delay s :
  let (r, s') := get_database_connection env max_retries retry_delay s in
  let performed := (n_connect s' - n_connect s)%nat in
  (1 <= max_retries ->
   Z.of_nat performed = max_retries ->
   (forall i, (i < performed)%nat -> connect_outcome env (n_connect s + i) = Failed) ->
   r = Ret None /\ failures_of s' = failures_of s + 1) /\
  (forall k conn,
     (k < performed)%nat ->
     pyodbc_connect env (n_connect s + k) = inl conn ->
     r = Ret (Some conn) /\ failures_of s' = failures_of s).
Proof.
  unfold get_database_connection. rewrite bind_modify_run.
  set (s0 := set_metrics incr_db_connection_attempts s).
  unfold bind at 1.
  destruct (for_range (Z.to_nat max_retries) 0
              (connection_attempt env max_retries retry_delay) s0) as [rl s1] eqn:E.
  destruct (retry_loop_cases _ max_retries n_connect (connect_outcome env) None
              (fun _ => 0) 0 failures_of
              (connection_attempt_spec env max_retries retry_delay) _ _ _ _ _ E)
    as (p & Hp & Hle & Hcase).
  unfold retry_loop_post in Hcase.
  change (n_connect s0) with (n_connect s) in *.
  change (failures_of s0) with (failures_of s) in *.
  assert (Hperf : (n_connect s1 - n_connect s)%nat = p) by lia.
  destruct rl as [[v |] | e |]; cbv beta iota zeta delta [ret]; rewrite ?Hperf.
  - destruct Hcase as (q & -> & Hq & Hlast). split.
    + intros Hmr Hall Hfail.
      destruct Hlast as [(Ho & _ & Hb) | (Ho & -> & _ & _ & Hb)].
      * rewrite Hfail in Ho by lia. discriminate.
      * auto.
    + intros k conn Hk Hconn.
      assert (Hkq : k = q).
      { destruct (Nat.eq_dec k q) as [| Hne]; [assumption |].
        assert (Hf := Hq k ltac:(lia)). unfold connect_outcome in Hf.
        rewrite Hconn in Hf. discriminate. }
      subst k.
      destruct Hlast as [(Ho & _ & Hb) | (Ho & _)];
        unfold connect_outcome in Ho; rewrite Hconn in Ho.
      * inversion Ho; subst. auto.
      * discriminate.
  - destruct Hcase as (-> & Hq & _ & Hb). split.
    + intros Hmr Hall Hfail.
      destruct (Hq (Z.to_nat (max_retries - 1)) ltac:(lia)) as [_ Hlt]. lia.
    + intros k conn Hk Hconn.
      destruct (Hq k Hk) as [Hf _]. unfold connect_outcome in Hf.
      rewrite Hconn in Hf. discriminate.
  - destruct Hcase as (q & -> & Hq & _ & Hb & Hlast). split.
    + intros Hmr Hall Hfail.
      destruct Hlast as [(_ & Hlt) | Ho].
      * lia.
      * rewrite Hfail in Ho by lia. discriminate.
    + intros k conn Hk Hconn.
      assert (Hkq : k = q).
      { destruct (Nat.eq_dec k q) as [| Hne]; [assumption |].
        assert (Hf := Hq k ltac:(lia)). unfold connect_outcome in Hf.
        rewrite Hconn in Hf. discriminate. }
      subst k.
      destruct Hlast as [(Ho & _) | Ho];
        unfold connect_outcome in Ho; rewrite Hconn in Ho; discriminate.
  - contradiction.
Qed.

Lemma connect_failure_accounting_witness :
  (fst (get_database_connection env_db_down 3 5 state_init) = Ret None /\
   failures_of (snd (get_database_connection env_db_down 3 5 state_init)) = 1) /\
  (fst (get_database_connection env_db_flaky 3 5 state_init) = Ret (Some 7%nat) /\
   failures_of (snd (get_database_connection env_db_flaky 3 5 state_init)) = 0).
Proof.
  split.
  - pose proof (connect_failure_accounting env_db_down 3 5 state_init) as H.
    destruct (get_database_connection env_db_down 3 5 state_init) as [r s'] eqn:E.
    vm_compute in E. inversion E; subst r s'; clear E.
    destruct H as [H _]. apply H.
    + lia.
    + reflexivity.
    + intros i _. reflexivity.
  - pose proof (connect_failure_accounting env_db_flaky 3 5 state_init) as H.
    destruct (get_database_connection env_db_flaky 3 5 state_init) as [r s'] eqn:E.
    vm_compute in E. inversion E; subst r s'; clear E.
    destruct H as [_ H]. apply (H 1%nat 7%nat).
    + simpl. lia.
    + reflexivity.
Defined.

(** C4, as the code has it.  [db_connection_attempts] counts calls of
    [get_database_connection], not calls of [pyodbc.connect]: the counter is
    incremented once, before the retry loop, so a call adds exactly 1 to it
    however many attempts (at most [max_retries]) it performs. *)
Theorem connect_counts_one_attempt_per_call env max_retries retry_delay s :
  let s' := snd (get_database_connection env max_retries retry_delay s) in
  attempts_of s' = attempts_of s + 1 /\
  (n_connect s <= n_connect s' <= n_connect s + Z.to_nat max_retries)%nat.
Proof.
  unfold get_database_connection. rewrite bind_modify_run. cbv zeta. split.
  - match goal with
    | |- attempts_of (snd (?m ?s0)) = _ =>
        assert (K : keeps (same_on attempts_of) m)
          by (keeps_prog; intros ?; reflexivity);
        destruct (keeps_run _ _ K s0) as [_ H]
    end.
    unfold same_on in H. rewrite H. reflexivity.
  - destruct (for_range (Z.to_nat max_retries) 0
                (connection_attempt env max_retries retry_delay)
                (set_metrics incr_db_connection_attempts s)) as [rl s1] eqn:E.
    destruct (retry_loop_cases _ max_retries n_connect (connect_outcome env) None
                (fun _ => 0) 0 failures_of
                (connection_attempt_spec env max_retries retry_delay) _ _ _ _ _ E)
      as (p & Hp & Hle & _).
    cbn [n_connect set_metrics] in Hp.
    destruct rl as [[v |] | e |]; run_with E; cbn [snd ret]; lia.
Qed.

(** C4 fails as stated: with the database down, a call with
    [max_retries = 3] performs three attempts and adds 1, not 3, to
    [db_connection_attempts]. *)
Lemma connect_attempts_counterexample :
  let s' := snd (get_database_connection env_db_down 3 5 state_init) in
  Z.of_nat (n_connect s' - n_connect state_init) = 3 /\
  1 <= 3 <= 3 /\
  attempts_of s' = attempts_of state_init + 1 /\
  attempts_of s' <> attempts_of state_init + 3.
Proof. vm_compute. repeat split; discriminate. Qed.

(** * The notification send operation *)

Lemma send_attempt_spec env message max_retries retry_delay :
  forall i s r s',
    send_attempt env message max_retries retry_delay i s = (r, s') ->
    n_post s' = S (n_post s) /\
    match post_outcome env (n_post s) with
    | Succeeded v =>
        r = Ret (Some v) /\ sent_of s' = sent_of s + 1 /\ failed_of s' = failed_of s
    | Failed =>
        if i <? max_retries - 1 then
          (r = Ret None \/ exists e, r = Raise e) /\
          sent_of s' = sent_of s /\ failed_of s' = failed_of s
        else
          r = Ret (Some PyFalse) /\ sent_of s' = sent_of s /\ failed_of s' = failed_of s + 1
    | Escaped e =>
        r = Raise e /\ sent_of s' = sent_of s /\ failed_of s' = failed_of s
    end.
Proof.
  intros i s r s' H. unfold post_outcome.
  unfold send_attempt, try_except, post_message, time_sleep, signal_handler,
    bind, gets, modify, ret, raise in H.
  destruct (chat_postMessage env (n_post s)) as [e |]; simpl in H.
  - destruct (is_SlackApiError e).
    + destruct (i <? max_retries - 1).
      * destruct (sleep_refused retry_delay); cbn in H;
          [| destruct (sleep_result env (n_sleep s))];
          inversion H; subst; simpl; eauto 6.
      * inversion H; subst. simpl. auto.
    + inversion H; subst. simpl. auto.
  - inversion H; subst. simpl. auto.
Qed.



(** An exception of [chat_postMessage] that is no [SlackApiError] leaves
    [send_slack_notification] at once, whatever [max_retries >= 1] is. *)
Lemma send_other_error_escapes env message max_retries retry_delay s e :
  1 <= max_retries ->
  chat_postMessage env (n_post s) = Some e ->
  is_SlackApiError e = false ->
  send_slack_notification env message max_retries retry_delay s = (Raise e, tick_post s).
Proof.
  intros Hmr Hpost He. unfold send_slack_notification.
  destruct (Z.to_nat max_retries) as [| n] eqn:N; [lia |].
  cbn [for_range].
  assert (E : send_attempt env message max_retries retry_delay 0 s = (Raise e, tick_post s)).
  { assert (Post : post_message env message s = (Raise e, tick_post s)).
    { unfold post_message. rewrite bind_gets_run, bind_modify_run, Hpost. reflexivity. }
    unfold send_attempt, try_except. run_with Post. rewrite He. reflexivity. }
  match goal with
  | |- bind ?loop _ s = _ =>
      assert (L : loop s = (Raise e, tick_post s)) by (run_with E; reflexivity)
  end.
  run_with L. reflexivity.
Qed.

(** C8 fails on the code.  [send_slack_notification] catches
    [SlackApiError] only: when [chat_postMessage] raises anything else (here
    a network error), the exception leaves the function after a single
    attempt, nothing is retried and neither counter moves.  Called with
    [max_retries = 0] the function returns [None], which is no boolean.
    [get_database_connection], the sibling retry loop, catches
    [Exception]. *)
Theorem send_lets_other_errors_escape :
  (let (r, s') := send_slack_notification env_slack_unreachable sample_message 3 5 state_init in
   r = Raise (PyException "URLError: network is unreachable") /\
   n_post s' = 1%nat /\
   sent_of s' = sent_of state_init /\
   failed_of s' = failed_of state_init) /\
  fst (send_slack_notification env_slack_rejecting sample_message 0 5 state_init) = Ret PyNone /\
  fst (get_database_connection env_db_down 3 5 state_init) = Ret None.
Proof. vm_compute. repeat split. Qed.

(** * The health check *)

(** How [health_check] ends, by how its call of [get_database_connection]
    ends. *)
Lemma health_check_cases env s :
  match get_database_connection env 3 5 (emit EvHealthCheck s) with
  | (Ret None, s1) => health_check env s = (Ret PyNone, s1)
  | (Ret (Some _), s1) =>
      match (db_call env OpCursor ;;; db_call env OpExecute ;;; db_call env OpFetchone ;;;
             db_call env OpCursorClose ;;; db_call env OpConnClose) s1 with
      | (Ret _, s2) =>
          health_check env s
          = (Ret PyTrue,
             set_metrics (set_last_successful_check (clock env (n_now s2))) (tick_now s2))
      | (Raise e, s2) =>
          health_check env s = if is_Exception e then (Ret PyFalse, s2) else (Raise e, s2)
      | (Timeout, _) => True
      end
  | (Raise e, s1) =>
      health_check env s = if is_Exception e then (Ret PyFalse, s1) else (Raise e, s1)
  | (Timeout, _) => True
  end.
Proof.
  unfold health_check. rewrite bind_modify_run. unfold try_except.
  destruct (get_database_connection env 3 5 (emit EvHealthCheck s))
    as [[[c |] | e |] s1] eqn:E; run_with E; try reflexivity; try exact I.
  destruct (db_call env OpCursor s1) as [[[] | e |] s2] eqn:E1; run_with E1;
    try reflexivity; try exact I.
  destruct (db_call env OpExecute s2) as [[[] | e |] s3] eqn:E2; run_with E2;
    try reflexivity; try exact I.
  destruct (db_call env OpFetchone s3) as [[[] | e |] s4] eqn:E3; run_with E3;
    try reflexivity; try exact I.
  destruct (db_call env OpCursorClose s4) as [[[] | e |] s5] eqn:E4; run_with E4;
    try reflexivity; try exact I.
  destruct (db_call env OpConnClose s5) as [[[] | e |] s6] eqn:E5; rewrite ?E5; run_with E5;
    try reflexivity; try exact I.
Qed.

(** C3 fails on the code where the connection cannot be opened.  After
    three failed attempts [get_database_connection] returns [None], the
    [if conn:] branch is skipped, and [health_check] falls off the end of
    its [try] block: it returns [None], not [False].  (A failing query does
    yield [False], and a passing check sets [last_successful_check] to the
    clock reading and yields [True].) *)
Theorem health_check_returns_none_when_db_down :
  fst (health_check env_db_down state_init) = Ret PyNone /\
  fst (health_check env_db_down state_init) <> Ret PyFalse /\
  fst (health_check env_query_fails state_init) = Ret PyFalse /\
  (let (r, s') := health_check env_healthy state_init in
   r = Ret PyTrue /\ last_successful_check (metrics s') = Some (clock env_healthy 0)).
Proof. vm_compute. repeat split; discriminate. Qed.

(** * The event fetch operation *)

Lemma fetch_offline_events_run env bound s :
  fetch_offline_events env bound s =
  match db_method env (n_db s) OpExecute with
  | Some e =>
      if is_Exception e then (Ret [], emit (EvFetch bound []) (tick_db s))
      else (Raise e, tick_db s)
  | None =>
      match db_method env (S (n_db s)) OpFetchall with
      | Some e =>
          if is_Exception e then (Ret [], emit (EvFetch bound []) (tick_db (tick_db s)))
          else (Raise e, tick_db (tick_db s))
      | None =>
          let rows := query_rows env (S (n_db s)) bound in
          (Ret rows, emit (EvFetch bound rows) (tick_db (tick_db s)))
      end
  end.
Proof.
  unfold fetch_offline_events, try_except, cursor_execute, cursor_fetchall, db_call,
    bind, gets, modify, ret, raise.
  cbn.
  destruct (db_method env (n_db s) OpExecute) as [e |]; [destruct (is_Exception e) |];
    try reflexivity.
  cbn.
  destruct (db_method env (S (n_db s)) OpFetchall) as [e |]; [destruct (is_Exception e) |];
    reflexivity.
Qed.

(** C6.  When [cursor.execute] (or the [fetchall] after it) raises an
    [Exception], [fetch_offline_events] returns the empty list and raises
    nothing; its caller sees the very result and state it would see after a
    query that succeeded and found no row. *)
Theorem fetch_failure_is_empty env bound s e :
  db_method env (n_db s) OpExecute = Some e \/
  (db_method env (n_db s) OpExecute = None /\
   db_method env (S (n_db s)) OpFetchall = Some e) ->
  is_Exception e = true ->
  fst (fetch_offline_events env bound s) = Ret [] /\
  forall quiet : Env,
    db_method quiet (n_db s) OpExecute = None ->
    db_method quiet (S (n_db s)) OpFetchall = None ->
    query_rows quiet (S (n_db s)) bound = [] ->
    fst (fetch_offline_events quiet bound s) = fst (fetch_offline_events env bound s) /\
    observable (snd (fetch_offline_events quiet bound s))
    = observable (snd (fetch_offline_events env bound s)).
Proof.
  intros Hfail He.
  assert (Hrun : fst (fetch_offline_events env bound s) = Ret [] /\
                 observable (snd (fetch_offline_events env bound s))
                 = observable (emit (EvFetch bound []) s)).
  { rewrite fetch_offline_events_run.
    destruct Hfail as [H1 | [H1 H2]].
    - rewrite H1, He. split; reflexivity.
    - rewrite H1, H2, He. split; reflexivity. }
  destruct Hrun as [Hr Ho]. split; [exact Hr |].
  intros quiet Q1 Q2 Q3. rewrite Hr, Ho.
  rewrite fetch_offline_events_run. rewrite Q1, Q2. cbv zeta. rewrite Q3.
  split; reflexivity.
Qed.

Lemma fetch_failure_is_empty_witness :
  fst (fetch_offline_events env_query_fails 1000 state_init) = Ret [] /\
  fst (fetch_offline_events env_db_down 1000 state_init)
  = fst (fetch_offline_events env_query_fails 1000 state_init) /\
  observable (snd (fetch_offline_events env_db_down 1000 state_init))
  = observable (snd (fetch_offline_events env_query_fails 1000 state_init)).
Proof.
  destruct (fetch_failure_is_empty env_query_fails 1000 state_init
              (PyException "42000: syntax error")) as [H1 H2].
  - left. reflexivity.
  - reflexivity.
  - split; [exact H1 |]. apply (H2 env_db_down); reflexivity.
Defined.

(** * The watermark *)

(** ** What a computation adds to the trace *)

#[global] Instance emits_PreOrder (Q : event -> Prop) : PreOrder (emits Q).
Proof.
  split.
  - intros s. exists []. split; [symmetry; apply app_nil_r | constructor].
  - intros s1 s2 s3 (evs1 & E1 & F1) (evs2 & E2 & F2).
    exists (evs1 ++ evs2). split.
    + rewrite E2, E1. symmetry. apply app_assoc.
    + apply Forall_app. auto.
Qed.

Lemma emits_weaken (Q Q' : event -> Prop) s s' :
  (forall e, Q e -> Q' e) -> emits Q s s' -> emits Q' s s'.
Proof.
  intros HQ (evs & E & F). exists evs. split; [assumption |].
  eapply Forall_impl; eassumption.
Qed.

Lemma emits_nothing Q s s' : trace s' = trace s -> emits Q s s'.
Proof. intros E. exists []. split; [rewrite E; symmetry; apply app_nil_r | constructor]. Qed.

Lemma emits_one (Q : event -> Prop) e s : Q e -> emits Q s (emit e s).
Proof. intros H. exists [e]. split; [reflexivity | repeat constructor; assumption]. Qed.

Lemma not_fetch_bound w e : ~ is_fetch e -> fetch_bound_is w e.
Proof. intros He bound rows ->. exfalso. apply He. exists bound, rows. reflexivity. Qed.

(** ** Steps that neither fetch nor move the watermark *)

#[global] Instance quiet_PreOrder : PreOrder quiet.
Proof.
  split.
  - intros s. split; reflexivity.
  - intros s1 s2 s3 (L1 & E1) (L2 & E2).
    split; [congruence | etransitivity; eassumption].
Qed.

(** Leaves of [keeps_prog] for [quiet]: a primitive state update. *)
Ltac quiet_leaf :=
  intros ?; split; [reflexivity |];
  first [ apply emits_nothing; reflexivity
        | apply emits_one; intros (? & ? & ?); discriminate ].

Lemma quiet_time_sleep env site secs : keeps quiet (time_sleep env site secs).
Proof. keeps_prog; quiet_leaf. Qed.

Lemma quiet_get_database_connection env max_retries retry_delay :
  keeps quiet (get_database_connection env max_retries retry_delay).
Proof. keeps_prog; quiet_leaf. Qed.

Lemma quiet_health_check env : keeps quiet (health_check env).
Proof. keeps_prog; quiet_leaf. Qed.

Lemma quiet_save_metrics env : keeps quiet (save_metrics env).
Proof. keeps_prog; quiet_leaf. Qed.

Lemma quiet_signals_at_work env : keeps quiet (signals_at_work env).
Proof. keeps_prog; quiet_leaf. Qed.

Lemma quiet_db_call env op : keeps quiet (db_call env op).
Proof. keeps_prog; quiet_leaf. Qed.


(** ** Processing a batch *)

Lemma watermark_after_cons w row rows :
  watermark_after w (row :: rows)
  = watermark_after (if log_datetime row >? w then log_datetime row else w) rows.
Proof. reflexivity. Qed.

Lemma watermark_after_is_max rows :
  forall w, is_max_from w rows (watermark_after w rows).
Proof.
  induction rows as [| row rows IH]; intros w.
  - repeat split; [apply Z.le_refl | constructor | left; reflexivity].
  - rewrite watermark_after_cons.
    set (w1 := if log_datetime row >? w then log_datetime row else w).
    destruct (IH w1) as (Hle & Hall & Hin).
    assert (H1 : w <= w1 /\ log_datetime row <= w1 /\ (w1 = w \/ w1 = log_datetime row)).
    { subst w1. destruct (Z.gtb_spec (log_datetime row) w); lia. }
    destruct H1 as (Hw & Hr & Hcase).
    repeat split.
    + lia.
    + constructor; [lia | exact Hall].
    + destruct Hin as [Hm | Hin].
      * destruct Hcase as [Hc | Hc].
        -- left. congruence.
        -- right. apply Exists_cons_hd. congruence.
      * right. apply Exists_cons_tl. exact Hin.
Qed.

Lemma submit_rows_run rows :
  forall t s, submit_rows rows t s = (Ret (watermark_after t rows), submitted rows s).
Proof.
  induction rows as [| row rows IH]; intros t s; simpl.
  - reflexivity.
  - unfold pool_submit, bind, modify. simpl. apply IH.
Qed.

Lemma submitted_trace rows :
  forall s, trace (submitted rows s)
            = trace s ++ map (fun row => EvSubmit (format_slack_message row)) rows.
Proof.
  induction rows as [| row rows IH]; intros s; simpl.
  - symmetry. apply app_nil_r.
  - unfold submitted in IH. rewrite IH. simpl. rewrite <- app_assoc. reflexivity.
Qed.

Lemma submitted_pool rows :
  forall s, pool (submitted rows s) = pool s ++ map format_slack_message rows.
Proof.
  induction rows as [| row rows IH]; intros s; simpl.
  - symmetry. apply app_nil_r.
  - unfold submitted in IH. rewrite IH. simpl. rewrite <- app_assoc. reflexivity.
Qed.

Lemma submitted_last_check rows :
  forall s, last_check (submitted rows s) = last_check s.
Proof.
  induction rows as [| row rows IH]; intros s; simpl.
  - reflexivity.
  - unfold submitted in IH. rewrite IH. reflexivity.
Qed.

(** ** One poll cycle *)

Lemma quiet_cycle_post s s' : quiet s s' -> cycle_post s s'.
Proof.
  intros (L & evs & E & F). exists evs. split; [assumption |].
  split; [| split; [left; assumption |]].
  - eapply Forall_impl; [| exact F]. intros e. apply not_fetch_bound.
  - intros bound rows Hin. exfalso. rewrite Forall_forall in F.
    apply (F _ Hin). exists bound, rows. reflexivity.
Qed.

Lemma quiet_then_cycle s1 s2 s3 :
  quiet s1 s2 -> cycle_post s2 s3 -> cycle_post s1 s3.
Proof.
  intros (L1 & evs1 & E1 & F1) (evs2 & E2 & F2 & W2 & X2). rewrite L1 in *.
  exists (evs1 ++ evs2). split; [rewrite E2, E1; symmetry; apply app_assoc |].
  split; [| split].
  - apply Forall_app. split; [| assumption].
    eapply Forall_impl; [| exact F1]. intros e. apply not_fetch_bound.
  - destruct W2 as [W2 | (rows & Hne & Hin & Hmax)]; [left; assumption |].
    right. exists rows. split; [assumption |].
    split; [apply in_or_app; right; assumption | assumption].
  - intros bound rows Hin. apply in_app_or in Hin. destruct Hin as [Hin | Hin].
    + exfalso. rewrite Forall_forall in F1.
      apply (F1 _ Hin). exists bound, rows. reflexivity.
    + exact (X2 _ _ Hin).
Qed.

Lemma cycle_then_quiet s1 s2 s3 :
  cycle_post s1 s2 -> quiet s2 s3 -> cycle_post s1 s3.
Proof.
  intros (evs1 & E1 & F1 & W1 & X1) (L2 & evs2 & E2 & F2).
  exists (evs1 ++ evs2). split; [rewrite E2, E1; symmetry; apply app_assoc |].
  split; [| split].
  - apply Forall_app. split; [assumption |].
    eapply Forall_impl; [| exact F2]. intros e. apply not_fetch_bound.
  - rewrite L2. destruct W1 as [W1 | (rows & Hne & Hin & Hmax)]; [left; assumption |].
    right. exists rows. split; [assumption |].
    split; [apply in_or_app; left; assumption | assumption].
  - rewrite L2. intros bound rows Hin. apply in_app_or in Hin.
    destruct Hin as [Hin | Hin]; [exact (X1 _ _ Hin) |].
    exfalso. rewrite Forall_forall in F2.
    apply (F2 _ Hin). exists bound, rows. reflexivity.
Qed.

Lemma db_call_run env op s :
  db_call env op s =
  match db_method env (n_db s) op with
  | None => (Ret tt, tick_db s)
  | Some e => (Raise e, tick_db s)
  end.
Proof.
  unfold db_call. rewrite bind_gets_run, bind_modify_run.
  destruct (db_method env (n_db s) op); reflexivity.
Qed.

Lemma process_events_cycle env : keeps cycle_post (process_events env).
Proof.
  intros s r s'. unfold process_events.
  destruct (db_call env OpCursor s) as [rc s1] eqn:C.
  pose proof C as C'. rewrite db_call_run in C'.
  assert (Qt : forall s2 : State,
             last_check s2 = last_check s -> trace s2 = trace s -> cycle_post s s2).
  { intros s2 L T. apply quiet_cycle_post. split; [assumption |].
    apply emits_nothing. assumption. }
  destruct (db_method env (n_db s) OpCursor) as [e |]; inversion C'; subst rc s1; clear C';
    run_with C; intros H.
  - (* conn.cursor() raised *)
    inversion H; subst. split; [discriminate | apply Qt; reflexivity].
  - rewrite bind_gets_run in H. change (last_check (tick_db s)) with (last_check s) in H.
    set (w := last_check s) in *.
    assert (Q0 : forall s2 : State,
               last_check s2 = w -> trace s2 = trace s ++ [EvFetch w []] ->
               cycle_post s s2).
    { intros s2 L T. exists [EvFetch w []]. split; [assumption |].
      split; [| split; [left; assumption |]].
      - repeat constructor. intros bound rows Hb. inversion Hb. reflexivity.
      - intros bound rows [Hb | []]. inversion Hb. exact L. }
    revert H.
    destruct (fetch_offline_events env w (tick_db s)) as [rf s2] eqn:F.
    pose proof F as F'. rewrite fetch_offline_events_run in F'. cbn in F'.
    destruct (db_method env (S (n_db s)) OpExecute) as [e |].
    { destruct (is_Exception e); inversion F'; subst rf s2; clear F'; run_with F;
        intros H; inversion H; subst;
        (split; [discriminate | first [apply Q0; reflexivity | apply Qt; reflexivity]]). }
    destruct (db_method env (S (S (n_db s))) OpFetchall) as [e |].
    { destruct (is_Exception e); inversion F'; subst rf s2; clear F'; run_with F;
        intros H; inversion H; subst;
        (split; [discriminate | first [apply Q0; reflexivity | apply Qt; reflexivity]]). }
    inversion F'; subst rf s2; clear F'; run_with F.
    destruct (query_rows env (S (S (n_db s))) w) as [| row rows] eqn:Rows; intros H.
    { inversion H; subst. split; [discriminate | apply Q0; reflexivity]. }
    unfold bind in H. rewrite submit_rows_run in H. unfold modify in H.
    apply pair_equal_spec in H. destruct H as [Hr Hs]. subst r s'.
    split; [discriminate |].
    set (s2 := emit (EvFetch w (row :: rows)) (tick_db (tick_db (tick_db s)))) in *.
    exists (EvFetch w (row :: rows)
            :: map (fun row => EvSubmit (format_slack_message row)) (row :: rows)).
    split; [| split; [| split]].
    + change (trace (submitted (row :: rows) s2)
              = trace s ++ [EvFetch w (row :: rows)]
                ++ map (fun row => EvSubmit (format_slack_message row)) (row :: rows)).
      rewrite submitted_trace. subst s2. cbn [trace emit tick_db].
      rewrite <- app_assoc. reflexivity.
    + constructor.
      * intros bound rows0 Hb. inversion Hb. reflexivity.
      * apply Forall_forall. intros e He bound rows0 ->.
        apply in_map_iff in He. destruct He as (r0 & Hr0 & _). discriminate.
    + right. exists (row :: rows). split; [discriminate |].
      split; [left; reflexivity |].
      apply watermark_after_is_max.
    + intros bound rows0 [Hb | Hin].
      * inversion Hb. reflexivity.
      * apply in_map_iff in Hin. destruct Hin as (r0 & Hr0 & _). discriminate.
Qed.

Lemma iteration_work_cycle env poll_interval :
  keeps cycle_post (iteration_work env poll_interval).
Proof.
  unfold iteration_work.
  apply (keeps_try_except_seq cycle_post quiet cycle_post cycle_then_quiet (fun _ _ H => H));
    [| intros e; apply keeps_ret; exact _].
  apply (keeps_seq quiet cycle_post cycle_post quiet_then_cycle quiet_cycle_post);
    [apply quiet_signals_at_work | intros _].
  apply (keeps_seq quiet cycle_post cycle_post quiet_then_cycle quiet_cycle_post);
    [apply quiet_health_check | intros healthy].
  destruct (negb (truthy healthy)).
  { apply (keeps_weaken quiet); [apply quiet_cycle_post | apply quiet_time_sleep]. }
  apply (keeps_seq quiet cycle_post cycle_post quiet_then_cycle quiet_cycle_post);
    [apply quiet_get_database_connection | intros [conn |]].
  - apply (keeps_seq cycle_post quiet cycle_post cycle_then_quiet (fun _ _ H => H));
      [| intros _; apply quiet_save_metrics].
    unfold with_conn.
    apply (keeps_try_finally_seq cycle_post quiet cycle_post cycle_then_quiet);
      [apply process_events_cycle | apply quiet_db_call].
  - apply (keeps_weaken quiet); [apply quiet_cycle_post | apply quiet_time_sleep].
Qed.


(** ** The whole loop *)

#[global] Instance watermark_le_PreOrder : PreOrder watermark_le.
Proof.
  split.
  - intros s. apply Z.le_refl.
  - intros s1 s2 s3. unfold watermark_le. lia.
Qed.


(** When every row of a non-empty batch is newer than the watermark, which
    is what the query asks for, the maximum taken from the watermark on is
    the newest timestamp of the batch. *)
Lemma is_max_from_newer w rows m :
  rows <> [] ->
  Forall (fun row => w < log_datetime row) rows ->
  is_max_from w rows m ->
  Exists (fun row => log_datetime row = m) rows /\
  Forall (fun row => log_datetime row <= m) rows.
Proof.
  intros Hne Hnew (Hle & Hall & [-> | Hex]); [| split; assumption].
  destruct rows as [| row rows]; [contradiction |].
  inversion Hnew; subst. inversion Hall; subst. lia.
Qed.


(** The scenario of the specification: a fetch returns two events newer
    than the watermark; after the cycle the watermark is the newest
    timestamp and both were submitted, in the order of the result set. *)
Example watermark_cycle_example :
  let s := set_last_check 1000 state_init in
  let s1 := snd (iteration env_healthy 60 s) in
  last_check s1 = 1500 /\
  pool s1 = [format_slack_message row_airhockey; format_slack_message row_skeeball] /\
  In (EvFetch 1000 [row_airhockey; row_skeeball]) (trace s1).
Proof. vm_compute. repeat split. right. left. reflexivity. Qed.

(** * Shutdown *)

(** ** Invariants of the trace *)

#[global] Instance inv_PreOrder (I : State -> Prop) : PreOrder (inv I).
Proof. split; unfold inv; [intros s H; exact H | intros s1 s2 s3 H1 H2 H; auto]. Qed.

Lemma snoc_split {A} (l : list A) (e : A) pre x post :
  l ++ [e] = pre ++ x :: post ->
  (post = [] /\ x = e /\ l = pre) \/
  (exists post', post = post' ++ [e] /\ l = pre ++ x :: post').
Proof.
  induction post as [| y post0 _] using rev_ind; intros H.
  - left. apply app_inj_tail in H. destruct H; auto.
  - right. exists post0.
    change (pre ++ x :: post0 ++ [y]) with (pre ++ (x :: post0) ++ [y]) in H.
    rewrite app_assoc in H. apply app_inj_tail in H. destruct H as [-> ->]. auto.
Qed.

Lemma unsignalled_frame s s' : trace s' = trace s -> unsignalled s -> unsignalled s'.
Proof. unfold unsignalled. intros ->. auto. Qed.

Lemma unsignalled_emit e s :
  ~ signalled_poll_sleep e -> unsignalled s -> unsignalled (emit e s).
Proof.
  unfold unsignalled. intros He H. simpl. apply Forall_app. split; [assumption |].
  repeat constructor. assumption.
Qed.

Lemma unsignalled_shutdown_inv s : unsignalled s -> shutdown_inv s.
Proof.
  unfold unsignalled, shutdown_inv. intros H. rewrite Forall_forall in H. split.
  - intros Hex. apply Exists_exists in Hex. destruct Hex as (e & Hin & He).
    exfalso. exact (H e Hin He).
  - intros pre e post E He. exfalso. apply (H e); [| assumption].
    rewrite E. apply in_or_app. right. left. reflexivity.
Qed.

Lemma shutdown_inv_running s :
  shutdown_inv s -> shutdown_flag s = false -> unsignalled s.
Proof.
  intros [HJ _] Hflag. unfold unsignalled. apply Forall_forall. intros e Hin He.
  assert (shutdown_flag s = true); [| congruence].
  apply HJ. apply Exists_exists. exists e. auto.
Qed.

Lemma shutdown_inv_frame s s' :
  trace s' = trace s -> (shutdown_flag s = true -> shutdown_flag s' = true) ->
  shutdown_inv s -> shutdown_inv s'.
Proof. unfold shutdown_inv. intros -> Hf [HJ HK]. split; auto. Qed.

Lemma shutdown_inv_emit e s :
  ~ signalled_poll_sleep e -> e <> EvHealthCheck ->
  shutdown_inv s -> shutdown_inv (emit e s).
Proof.
  unfold shutdown_inv. intros He Hhc [HJ HK]. simpl. split.
  - intros Hex. apply Exists_app in Hex. destruct Hex as [Hex | Hex]; [auto |].
    inversion Hex as [? ? Hx | ? ? Hx]; subst; [contradiction | inversion Hx].
  - intros pre x post E Hx.
    destruct (snoc_split _ _ _ _ _ E) as [(-> & _ & _) | (post' & -> & E')].
    + intros [].
    + intros Hin. apply in_app_or in Hin. destruct Hin as [Hin | [Hin | []]].
      * exact (HK _ _ _ E' Hx Hin).
      * congruence.
Qed.

(** Leaves of [keeps_prog] for the two invariants. *)
Ltac unsignalled_leaf :=
  intros ? ?;
  first [ apply unsignalled_emit;
          [intros (? & ? & ?); discriminate | assumption]
        | eapply unsignalled_frame; [| eassumption]; reflexivity ].

Ltac shutdown_leaf :=
  intros ? ?;
  first [ apply shutdown_inv_emit;
          [intros (? & ? & ?); discriminate | discriminate | assumption]
        | eapply shutdown_inv_frame; [| | eassumption]; [reflexivity | simpl; auto] ].

(** ** The invariants through the program *)

Lemma unsignalled_signals_at_work env : keeps (inv unsignalled) (signals_at_work env).
Proof. keeps_prog; unsignalled_leaf. Qed.

Lemma unsignalled_health_check env : keeps (inv unsignalled) (health_check env).
Proof. keeps_prog; unsignalled_leaf. Qed.

Lemma shutdown_inv_time_sleep env site secs :
  keeps (inv shutdown_inv) (time_sleep env site secs).
Proof.
  intros s r s' H. unfold time_sleep in H.
  destruct (sleep_refused secs).
  { inversion H; subst. split; [discriminate | intros I; exact I]. }
  rewrite bind_gets_run, bind_modify_run, bind_modify_run in H.
  destruct (sleep_result env (n_sleep s)) as [| signum | | e]; inversion H; subst;
    (split; [discriminate | intros I]).
  - apply shutdown_inv_emit; [intros (? & ? & ?); discriminate | discriminate |].
    eapply shutdown_inv_frame; [| | exact I]; [reflexivity | auto].
  - (* the handler sets the flag right after the sleep is recorded *)
    assert (I1 : shutdown_inv (tick_sleep s))
      by (eapply shutdown_inv_frame; [| | exact I]; [reflexivity | auto]).
    destruct I1 as [_ HK]. split; [intros _; reflexivity |].
    cbn [trace set_shutdown_flag emit].
    intros pre x post E Hx.
    destruct (snoc_split _ _ _ _ _ E) as [(-> & _ & _) | (post1 & -> & E1)];
      [intros [] |].
    destruct (snoc_split _ _ _ _ _ E1) as [(-> & _ & _) | (post2 & -> & E2)].
    + intros [Hin | []]. discriminate.
    + intros Hin. apply in_app_or in Hin. destruct Hin as [Hin | [Hin | []]];
        [| discriminate].
      apply in_app_or in Hin. destruct Hin as [Hin | [Hin | []]]; [| discriminate].
      exact (HK _ _ _ E2 Hx Hin).
  - apply shutdown_inv_emit; [intros (? & ? & ?); discriminate | discriminate |].
    eapply shutdown_inv_frame; [| | exact I]; [reflexivity | auto].
  - apply shutdown_inv_emit; [intros (? & ? & ?); discriminate | discriminate |].
    eapply shutdown_inv_frame; [| | exact I]; [reflexivity | auto].
Qed.

#[global] Hint Resolve shutdown_inv_time_sleep : keeps.

Lemma shutdown_inv_save_metrics env : keeps (inv shutdown_inv) (save_metrics env).
Proof. keeps_prog; shutdown_leaf. Qed.

Lemma iteration_arms env poll_interval : keeps arms (iteration env poll_interval).
Proof.
  assert (A1 : forall s1 s2 s3, inv unsignalled s1 s2 -> arms s2 s3 -> arms s1 s3)
    by (unfold inv, arms; auto).
  assert (A2 : forall s1 s2, inv unsignalled s1 s2 -> arms s1 s2)
    by (unfold inv, arms; auto using unsignalled_shutdown_inv).
  assert (A3 : forall s1 s2 s3, inv unsignalled s1 s2 -> inv shutdown_inv s2 s3 -> arms s1 s3)
    by (unfold inv, arms; auto using unsignalled_shutdown_inv).
  assert (A4 : forall s1 s2 s3, arms s1 s2 -> inv shutdown_inv s2 s3 -> arms s1 s3)
    by (unfold inv, arms; auto).
  unfold iteration.
  apply (keeps_loop_finally_seq arms (inv shutdown_inv) arms A4);
    [| keeps_prog; shutdown_leaf].
  unfold iteration_work.
  apply (keeps_try_except_seq arms (inv shutdown_inv) arms A4 (fun _ _ H => H));
    [| intros e; apply keeps_ret; exact _].
  apply (keeps_seq (inv unsignalled) arms arms A1 A2);
    [apply unsignalled_signals_at_work | intros _].
  apply (keeps_seq (inv unsignalled) (inv shutdown_inv) arms A3 A2);
    [apply unsignalled_health_check | intros healthy].
  keeps_prog; shutdown_leaf.
Qed.

Lemma while_not_shutdown_inv env poll_interval :
  forall fuel s r s',
    shutdown_inv s ->
    while_not_shutdown fuel (iteration env poll_interval) s = (r, s') ->
    shutdown_inv s' /\ (r = Timeout -> shutdown_flag s' = false).
Proof.
  induction fuel as [| fuel IH]; intros s r s' I H; simpl in H;
    destruct (shutdown_flag s) eqn:Flag;
    try (inversion H; subst; split; [assumption | first [discriminate | auto]]).
  destruct (bind_inv _ _ _ _ _ H) as [(stop & s1 & E1 & E2) | [(e & E1 & ->) | (E1 & ->)]];
    destruct (iteration_arms env poll_interval _ _ _ E1) as [Hr Ha];
    [| | congruence].
  - assert (I1 : shutdown_inv s1) by (apply Ha; apply shutdown_inv_running; assumption).
    destruct stop.
    + inversion E2; subst. split; [assumption | discriminate].
    + eapply IH; eassumption.
  - split; [| discriminate]. apply Ha. apply shutdown_inv_running; assumption.
Qed.

Lemma monitor_shutdown_inv env poll_interval fuel s r s' :
  unsignalled s ->
  monitor_swiper_offline_events env poll_interval fuel s = (r, s') ->
  shutdown_inv s' /\ (r = Timeout -> shutdown_flag s' = false).
Proof.
  intros U H. unfold monitor_swiper_offline_events in H.
  run_with_in (now_run env s) H. rewrite bind_modify_run in H.
  set (s0 := set_last_check (clock env (n_now s) - 60000000) (tick_now s)) in H.
  assert (I0 : shutdown_inv s0).
  { apply unsignalled_shutdown_inv. eapply unsignalled_frame; [| exact U]. reflexivity. }
  unfold try_finally in H.
  destruct (while_not_shutdown fuel (iteration env poll_interval) s0) as [rw sw] eqn:W.
  destruct (while_not_shutdown_inv _ _ _ _ _ _ I0 W) as [Iw Tw].
  assert (Ie : shutdown_inv (emit EvPoolShutdown sw)).
  { apply shutdown_inv_emit; [intros (? & ? & ?); discriminate | discriminate | assumption]. }
  destruct rw; cbn in H; inversion H; subst; (split; [assumption | first [discriminate | auto]]).
Qed.

Lemma save_metrics_trace env s :
  fst (save_metrics env s) <> Timeout /\
  trace (snd (save_metrics env s)) = trace s ++ [EvSaveMetrics (metrics s)].
Proof.
  unfold save_metrics. rewrite bind_gets_run.
  run_with (now_run env s). rewrite bind_modify_run.
  unfold try_except, write_metrics_file. rewrite bind_gets_run, bind_modify_run.
  cbn.
  destruct (file_write env (n_write s)) as [e |]; cbn; [destruct (is_Exception e) |];
    (split; [cbn; discriminate | reflexivity]).
Qed.

(** Every call of [save_metrics] goes on to write the metrics file, and
    nothing else writes it. *)
Lemma save_calls_snoc evs e :
  save_calls (evs ++ [e]) = (save_calls evs + (if is_save e then 1 else 0))%nat.
Proof.
  unfold save_calls. rewrite filter_app, List.length_app. cbn [filter].
  destruct (is_save e); reflexivity.
Qed.

Ltac unwritten_leaf :=
  intros ?; unfold same_on, unwritten; cbn [trace n_write emit set_metrics
    set_shutdown_flag set_last_check push_pool tick_connect tick_db tick_post
    tick_sleep tick_now tick_iter];
  rewrite ?save_calls_snoc; cbn [is_save]; rewrite ?Nat.add_0_r; reflexivity.

Lemma unwritten_save_metrics env : keeps (same_on unwritten) (save_metrics env).
Proof.
  intros s r s' H. rewrite save_metrics_run in H. cbv zeta in H.
  assert (U : unwritten (tick_write (emit (EvSaveMetrics (metrics s)) (tick_now s)))
              = unwritten s).
  { unfold unwritten. cbn [trace n_write tick_write emit tick_now].
    rewrite save_calls_snoc. cbn [is_save]. lia. }
  destruct (file_write env (n_write s)) as [e |]; [destruct (is_Exception e) |];
    inversion H; subst; (split; [discriminate | exact U]).
Qed.

#[global] Hint Resolve unwritten_save_metrics : keeps.

Lemma unwritten_health_check env : keeps (same_on unwritten) (health_check env).
Proof. keeps_prog; unwritten_leaf. Qed.

Lemma unwritten_iteration env poll_interval :
  keeps (same_on unwritten) (iteration env poll_interval).
Proof. keeps_prog; unwritten_leaf. Qed.

Lemma main_unwritten env fuel s : unwritten (snd (main env fuel s)) = unwritten s.
Proof.
  apply (main_rel (same_on unwritten) env).
  - apply unwritten_health_check.
  - apply unwritten_iteration.
  - apply unwritten_save_metrics.
  - unwritten_leaf.
  - intros t. unwritten_leaf.
  - unwritten_leaf.
Qed.

(** When a run of [main] ends, the last thing it did is a call of
    [save_metrics] with the counters as they are at the end. *)
Lemma main_last_event env fuel s r s' :
  main env fuel s = (r, s') ->
  r <> Timeout ->
  exists pre, trace s' = pre ++ [EvSaveMetrics (metrics s')].
Proof.
  intros H Hr.
  destruct (logger_unbound env) eqn:L.
  - unfold logger_unbound in L.
    destruct (startup env) as [p | [e | e]] eqn:Hs; try discriminate.
    rewrite (main_logger_unbound _ _ _ _ Hs) in H. inversion H; subst.
    exists (trace s). reflexivity.
  - rewrite (main_logger_bound _ _ _ L) in H. unfold try_finally in H.
    match type of H with
    | (match ?body s with _ => _ end) = _ => destruct (body s) as [rb sb]
    end.
    rewrite save_metrics_run in H. cbv zeta in H.
    destruct rb as [a | e |]; [| | inversion H; subst; congruence];
      (destruct (file_write env (n_write sb)) as [ew |];
       [destruct (is_Exception ew) |]); inversion H; subst;
      exists (trace sb); reflexivity.
Qed.

Lemma main_shutdown_inv env fuel s r s' :
  unsignalled s ->
  main env fuel s = (r, s') ->
  shutdown_inv s' /\
  (r = Timeout -> shutdown_flag s' = false) /\
  (r <> Timeout -> exists pre snapshot, trace s' = pre ++ [EvSaveMetrics snapshot]).
Proof.
  intros U H.
  destruct (logger_unbound env) eqn:L.
  { (* the start-up failed before the logger was bound *)
    unfold logger_unbound in L.
    destruct (startup env) as [p | [e | e]] eqn:Hs; try discriminate.
    rewrite (main_logger_unbound _ _ _ _ Hs) in H. inversion H; subst.
    split; [| split; [discriminate | intros _; exists (trace s), (metrics s); reflexivity]].
    eapply shutdown_inv_frame; [| | apply shutdown_inv_emit];
      [reflexivity | auto | intros (? & ? & ?); discriminate | discriminate |].
    eapply shutdown_inv_frame; [| | apply unsignalled_shutdown_inv; exact U];
      [reflexivity | auto]. }
  rewrite (main_logger_bound _ _ _ L) in H. unfold try_finally in H.
  match type of H with
  | (match ?body s with _ => _ end) = _ => destruct (body s) as [rb sb] eqn:B
  end.
  assert (Ib : shutdown_inv sb /\ (rb = Timeout -> shutdown_flag sb = false)).
  { clear H. unfold try_except in B.
    match type of B with
    | (match ?body s with _ => _ end) = _ => destruct (body s) as [ri si] eqn:Bi
    end.
    assert (Ii : shutdown_inv si /\ (ri = Timeout -> shutdown_flag si = false)).
    { clear B. unfold read_startup in Bi.
      destruct (startup env) as [poll_interval | [e | e]].
      - unfold bind at 1, ret at 1 in Bi.
        destruct (health_check env s) as [rh sh] eqn:Hc.
        destruct (unsignalled_health_check env _ _ _ Hc) as [Hr Hu].
        specialize (Hu U). run_with Hc.
        unfold bind in Bi. rewrite Hc in Bi.
        destruct rh as [healthy | e |].
        + destruct (negb (truthy healthy)).
          * inversion Bi; subst.
            split; [apply unsignalled_shutdown_inv; assumption | discriminate].
          * eapply monitor_shutdown_inv; eassumption.
        + inversion Bi; subst.
          split; [apply unsignalled_shutdown_inv; assumption | discriminate].
        + congruence.
      - inversion Bi; subst.
        split; [apply unsignalled_shutdown_inv; assumption | discriminate].
      - inversion Bi; subst.
        split; [apply unsignalled_shutdown_inv; assumption | discriminate]. }
    destruct Ii as [Ii Ti].
    destruct ri as [a | e |].
    - inversion B; subst. split; [assumption | discriminate].
    - destruct (is_Exception e); inversion B; subst; (split; [assumption | discriminate]).
    - inversion B; subst. auto. }
  destruct Ib as [Ib Tb].
  destruct (save_metrics_trace env sb) as [Sr St].
  destruct (keeps_run _ _ (shutdown_inv_save_metrics env) sb) as [_ Si].
  specialize (Si Ib).
  destruct (save_metrics env sb) as [rs ss]. cbn [fst snd] in *.
  destruct rb as [a | e |].
  - destruct rs as [[] | e' |]; [| | congruence]; inversion H; subst;
      (split; [assumption | split; [discriminate | intros _; eauto]]).
  - destruct rs as [[] | e' |]; [| | congruence]; inversion H; subst;
      (split; [assumption | split; [discriminate | intros _; eauto]]).
  - inversion H; subst. split; [assumption | split; [auto | congruence]].
Qed.

(** C7.  In every run of [main], if a termination signal arrives during a
    sleep of the monitor loop, then no health check starts after that
    sleep, the run ends (the loop is left, [main] finishes), and the last
    thing the run does is a call of [save_metrics] with the counters as they
    are at the end.  That call, like every call of [save_metrics] of the
    run, went on to write the metrics file: at the end the file has been
    written as many times as [save_metrics] was called. *)
Theorem shutdown_during_sleep env fuel pre secs signum post :
  let (r, s') := main env fuel state_init in
  trace s' = pre ++ EvSleep PollSleep secs (SleptSignalled signum) :: post ->
  ~ In EvHealthCheck post /\
  r <> Timeout /\
  (exists post', post = post' ++ [EvSaveMetrics (metrics s')]) /\
  n_write s' = save_calls (trace s').
Proof.
  pose proof (main_unwritten env fuel state_init) as Hu.
  destruct (main env fuel state_init) as [r s'] eqn:Run. intros E.
  assert (U : unsignalled state_init) by constructor.
  destruct (main_shutdown_inv _ _ _ _ _ U Run) as ([HJ HK] & HT & _).
  assert (Sig : signalled_poll_sleep (EvSleep PollSleep secs (SleptSignalled signum)))
    by (exists secs, signum; reflexivity).
  assert (Hr : r <> Timeout).
  { intros ->. assert (shutdown_flag s' = true); [| rewrite HT in *; congruence].
    apply HJ. rewrite E. apply Exists_app. right. left. exact Sig. }
  split; [exact (HK _ _ _ E Sig) |]. split; [exact Hr |]. split.
  - destruct (main_last_event _ _ _ _ _ Run Hr) as (t & Et). rewrite Et in E.
    destruct (snoc_split _ _ _ _ _ E) as [(_ & Hx & _) | (post' & -> & _)].
    + discriminate.
    + eauto.
  - cbn [snd] in Hu. unfold unwritten in Hu. cbn in Hu. lia.
Qed.

Lemma shutdown_during_sleep_witness :
  exists pre post,
    trace (snd (main env_sigterm_asleep 3 state_init))
    = pre ++ EvSleep PollSleep 60 (SleptSignalled 15) :: post /\
    ~ In EvHealthCheck post /\
    fst (main env_sigterm_asleep 3 state_init) <> Timeout /\
    (exists post',
       post = post' ++ [EvSaveMetrics (metrics (snd (main env_sigterm_asleep 3 state_init)))]) /\
    n_write (snd (main env_sigterm_asleep 3 state_init)) = 2%nat.
Proof.
  exists [EvHealthCheck; EvHealthCheck; EvFetch (-59998999) [];
          EvSaveMetrics (mkMetrics 0 0 3 0 (Some 1002))].
  exists [EvSignal 15; EvPoolShutdown; EvSaveMetrics (mkMetrics 0 0 3 0 (Some 1002))].
  pose proof (shutdown_during_sleep env_sigterm_asleep 3
                [EvHealthCheck; EvHealthCheck; EvFetch (-59998999) [];
                 EvSaveMetrics (mkMetrics 0 0 3 0 (Some 1002))]
                60 15
                [EvSignal 15; EvPoolShutdown;
                 EvSaveMetrics (mkMetrics 0 0 3 0 (Some 1002))]) as H.
  destruct (main env_sigterm_asleep 3 state_init) as [r s'] eqn:Run.
  vm_compute in Run. inversion Run; subst r s'; clear Run.
  split; [reflexivity | apply H; reflexivity].
Defined.

(** * Configuration *)

(** ** [validate_config] *)

Ltac missing_at k :=
  exists (firstn k all_required),
         (fst (nth k all_required (EmptyString, EmptyString))),
         (snd (nth k all_required (EmptyString, EmptyString))),
         (skipn (S k) all_required);
  cbn; split; [reflexivity | split; [repeat constructor; cbn; eauto | auto]].

(** The cases of [validate_config], by the first parameter the parser does
    not answer with a value. *)
Lemma validate_config_cases config :
  match validate_config config with
  | inl (db, slack) =>
      config_get config "DATABASE" "DRIVER" = inl (Some (driver db)) /\
      config_get config "DATABASE" "SERVER" = inl (Some (server db)) /\
      config_get config "DATABASE" "PORT" = inl (Some (port db)) /\
      config_get config "DATABASE" "DATABASE" = inl (Some (database db)) /\
      config_get config "DATABASE" "UID" = inl (Some (uid db)) /\
      config_get config "DATABASE" "PWD" = inl (Some (pwd db)) /\
      config_get config "DATABASE" "TDS_VERSION" = inl (Some (tds_version db)) /\
      config_get config "SLACK" "BOT_TOKEN" = inl (Some (bot_token slack)) /\
      config_get config "SLACK" "CHANNEL" = inl (Some (channel slack))
  | inr e =>
      exists pre section param post,
        all_required = pre ++ (section, param) :: post /\
        Forall (fun sp => exists value,
                    config_get config (fst sp) (snd sp) = inl (Some value)) pre /\
        ((config_get config section param = inl None /\
          e = PyException ("ValueError: Missing required " ++ section
                           ++ " parameter: " ++ param)%string) \/
         config_get config section param = inr e)
  end.
Proof.
  unfold validate_config, required_db_params, required_slack_params. cbn [collect_params].
  destruct (config_get config "DATABASE" "DRIVER") as [[v1 |] | e1] eqn:G1;
    [| missing_at 0%nat | missing_at 0%nat].
  destruct (config_get config "DATABASE" "SERVER") as [[v2 |] | e2] eqn:G2;
    [| missing_at 1%nat | missing_at 1%nat].
  destruct (config_get config "DATABASE" "PORT") as [[v3 |] | e3] eqn:G3;
    [| missing_at 2%nat | missing_at 2%nat].
  destruct (config_get config "DATABASE" "DATABASE") as [[v4 |] | e4] eqn:G4;
    [| missing_at 3%nat | missing_at 3%nat].
  destruct (config_get config "DATABASE" "UID") as [[v5 |] | e5] eqn:G5;
    [| missing_at 4%nat | missing_at 4%nat].
  destruct (config_get config "DATABASE" "PWD") as [[v6 |] | e6] eqn:G6;
    [| missing_at 5%nat | missing_at 5%nat].
  destruct (config_get config "DATABASE" "TDS_VERSION") as [[v7 |] | e7] eqn:G7;
    [| missing_at 6%nat | missing_at 6%nat].
  destruct (config_get config "SLACK" "BOT_TOKEN") as [[v8 |] | e8] eqn:G8;
    [| missing_at 7%nat | missing_at 7%nat].
  destruct (config_get config "SLACK" "CHANNEL") as [[v9 |] | e9] eqn:G9;
    [| missing_at 8%nat | missing_at 8%nat].
  cbn. repeat split; reflexivity.
Qed.

(** [validate_config] yields the two records exactly from the values the
    parser holds for the nine required parameters; when it raises, it raises
    for the first parameter, in the order of the two literals, that the
    parser does not answer with a value: [ValueError] naming the section and
    the parameter when it is missing, else the parser's own exception.  The
    keyword arguments always fit the dataclasses. *)
Theorem validate_config_result config :
  match validate_config config with
  | inl (db, slack) =>
      config_get config "DATABASE" "DRIVER" = inl (Some (driver db)) /\
      config_get config "DATABASE" "SERVER" = inl (Some (server db)) /\
      config_get config "DATABASE" "PORT" = inl (Some (port db)) /\
      config_get config "DATABASE" "DATABASE" = inl (Some (database db)) /\
      config_get config "DATABASE" "UID" = inl (Some (uid db)) /\
      config_get config "DATABASE" "PWD" = inl (Some (pwd db)) /\
      config_get config "DATABASE" "TDS_VERSION" = inl (Some (tds_version db)) /\
      config_get config "SLACK" "BOT_TOKEN" = inl (Some (bot_token slack)) /\
      config_get config "SLACK" "CHANNEL" = inl (Some (channel slack))
  | inr e =>
      exists pre section param post,
        all_required = pre ++ (section, param) :: post /\
        Forall (fun sp => exists value,
                    config_get config (fst sp) (snd sp) = inl (Some value)) pre /\
        ((config_get config section param = inl None /\
          e = PyException ("ValueError: Missing required " ++ section
                           ++ " parameter: " ++ param)%string) \/
         config_get config section param = inr e)
  end.
Proof. exact (validate_config_cases config). Qed.

(** When the parser raises nothing and a required parameter is missing,
    [validate_config] raises [ValueError]. *)
Lemma validate_config_missing config section param :
  parser_answers config ->
  In (section, param) all_required ->
  config_get config section param = inl None ->
  exists e, validate_config config = inr e /\ is_Exception e = true.
Proof.
  intros Ha Hin Hmiss. pose proof (validate_config_cases config) as H.
  destruct (validate_config config) as [[db slack] | e].
  - exfalso. destruct H as (H1 & H2 & H3 & H4 & H5 & H6 & H7 & H8 & H9).
    cbn in Hin.
    repeat (destruct Hin as [Hin | Hin];
            [inversion Hin; subst; congruence |]).
    contradiction.
  - exists e. split; [reflexivity |].
    destruct H as (pre & sec & par & post & Hall & _ & [[_ ->] | Herr]).
    + reflexivity.
    + destruct (Ha sec par) as [o Ho]; [| congruence].
      rewrite Hall. apply in_or_app. right. left. reflexivity.
Qed.

(** ** [read_config] *)

(** The cases of [read_config] once the file is parsed. *)
Lemma read_config_cases file readable :
  files_read file = inl readable ->
  match read_config file with
  | inl (db, slack, poll_interval) =>
      readable = true /\
      validate_config (parsed file) = inl (db, slack) /\
      (config_getint (parsed file) "GENERAL" "POLL_INTERVAL" = inl (Some poll_interval) \/
       (config_getint (parsed file) "GENERAL" "POLL_INTERVAL" = inl None /\
        poll_interval = 60))
  | inr e =>
      is_Exception e = false /\
      (readable = false -> e = SystemExit 1) /\
      (forall e0, validate_config (parsed file) = inr e0 ->
                  is_Exception e0 = true -> e = SystemExit 1) /\
      (forall ok e0, validate_config (parsed file) = inl ok ->
                     config_getint (parsed file) "GENERAL" "POLL_INTERVAL" = inr e0 ->
                     is_Exception e0 = true -> e = SystemExit 1)
  end.
Proof.
  intros Hread. unfold read_config. rewrite Hread.
  destruct readable.
  2: { repeat split; try reflexivity; intros; discriminate. }
  destruct (validate_config (parsed file)) as [[db slack] | e0] eqn:V.
  - destruct (config_getint (parsed file) "GENERAL" "POLL_INTERVAL")
      as [[poll_interval |] | e1] eqn:G.
    + repeat split; auto.
    + repeat split; auto.
    + destruct (is_Exception e1) eqn:E1; repeat split; intros;
        try reflexivity; try assumption; try discriminate;
        match goal with
        | H : inr _ = inr _ |- _ => inversion H; subst; congruence
        end.
  - destruct (is_Exception e0) eqn:E0; repeat split; intros;
      try reflexivity; try assumption; try discriminate;
      match goal with
      | H : inr _ = inr _ |- _ => inversion H; subst; congruence
      end.
Qed.

(** Once the file is parsed, [read_config] returns only with all required
    parameters validated, with the poll interval of the file or 60 when the
    file gives none; and it never lets an [Exception] out: an unreadable or
    empty file, an exception of [validate_config] and a poll interval that
    is no integer all end in [SystemExit(1)]. *)
Theorem read_config_result file readable :
  files_read file = inl readable ->
  match read_config file with
  | inl (db, slack, poll_interval) =>
      readable = true /\
      validate_config (parsed file) = inl (db, slack) /\
      (config_getint (parsed file) "GENERAL" "POLL_INTERVAL" = inl (Some poll_interval) \/
       (config_getint (parsed file) "GENERAL" "POLL_INTERVAL" = inl None /\
        poll_interval = 60))
  | inr e =>
      is_Exception e = false /\
      (readable = false -> e = SystemExit 1) /\
      (forall e0, validate_config (parsed file) = inr e0 ->
                  is_Exception e0 = true -> e = SystemExit 1) /\
      (forall ok e0, validate_config (parsed file) = inl ok ->
                     config_getint (parsed file) "GENERAL" "POLL_INTERVAL" = inr e0 ->
                     is_Exception e0 = true -> e = SystemExit 1)
  end.
Proof. exact (read_config_cases file readable). Qed.

Lemma read_config_result_witness :
  read_config (mkConfigFile (inl true) config_without_token) = inr (SystemExit 1) /\
  read_config (mkConfigFile (inl false) config_complete) = inr (SystemExit 1) /\
  exists db slack, read_config (mkConfigFile (inl true) config_complete) = inl (db, slack, 30).
Proof.
  split; [| split].
  - pose proof (read_config_result (mkConfigFile (inl true) config_without_token) true
                  eq_refl) as H.
    destruct (read_config (mkConfigFile (inl true) config_without_token))
      as [[[db slack] p] | e] eqn:R.
    + vm_compute in R. discriminate.
    + destruct H as (_ & _ & H & _). f_equal.
      apply (H (PyException "ValueError: Missing required SLACK parameter: BOT_TOKEN"));
        reflexivity.
  - pose proof (read_config_result (mkConfigFile (inl false) config_complete) false
                  eq_refl) as H.
    destruct (read_config (mkConfigFile (inl false) config_complete))
      as [[[db slack] p] | e] eqn:R.
    + vm_compute in R. discriminate.
    + destruct H as (_ & H & _). f_equal. apply H. reflexivity.
  - eexists. eexists. vm_compute. reflexivity.
Defined.

(** ** [build_connection_string] *)

Lemma string_app_assoc (a b c : string) :
  ((a ++ b) ++ c)%string = (a ++ b ++ c)%string.
Proof. induction a as [| x a IH]; simpl; [reflexivity | rewrite IH; reflexivity]. Qed.

Lemma string_app_length (a b : string) :
  String.length (a ++ b)%string = (String.length a + String.length b)%nat.
Proof. induction a as [| x a IH]; simpl; [reflexivity | rewrite IH; reflexivity]. Qed.

Lemma string_app_inv_tail (a a' c : string) :
  (a ++ c)%string = (a' ++ c)%string -> a = a'.
Proof.
  revert a'. induction a as [| x a IH]; intros [| x' a'] H; simpl in H.
  - reflexivity.
  - exfalso. apply (f_equal String.length) in H. simpl in H.
    rewrite string_app_length in H. lia.
  - exfalso. apply (f_equal String.length) in H. simpl in H.
    rewrite string_app_length in H. lia.
  - inversion H; subst. f_equal. apply IH. assumption.
Qed.

Lemma has_char_app c (a b : string) :
  has_char c (a ++ b)%string = (has_char c a || has_char c b)%bool.
Proof.
  induction a as [| x a IH]; simpl; [reflexivity |].
  destruct (Ascii.eqb c x); [reflexivity | exact IH].
Qed.

(** Two strings split at the first occurrence of [c] in the same way. *)
Lemma split_at_char c (a a' b b' : string) :
  has_char c a = false -> has_char c a' = false ->
  (a ++ String c b)%string = (a' ++ String c b')%string ->
  a = a' /\ b = b'.
Proof.
  revert a'. induction a as [| x a IH]; intros [| x' a'] Ha Ha' H; simpl in *.
  - inversion H. auto.
  - inversion H; subst. rewrite Ascii.eqb_refl in Ha'. discriminate.
  - inversion H; subst. rewrite Ascii.eqb_refl in Ha. discriminate.
  - inversion H; subst.
    destruct (Ascii.eqb c x'); [discriminate |].
    destruct (IH a' Ha Ha' H2) as [-> ->]. auto.
Qed.

(** One segment [KEY=value;] of the connection string determines its value
    and what follows it. *)
Lemma segment_inj (key v v' rest rest' : string) :
  has_char semicolon v = false -> has_char semicolon v' = false ->
  ((key ++ v ++ ";") ++ rest)%string = ((key ++ v' ++ ";") ++ rest')%string ->
  v = v' /\ rest = rest'.
Proof.
  intros Hv Hv' H. rewrite !string_app_assoc in H.
  assert (H1 : (v ++ ";" ++ rest)%string = (v' ++ ";" ++ rest')%string).
  { clear Hv Hv'. induction key as [| x key IH]; simpl in H; [exact H |].
    inversion H. auto. }
  exact (split_at_char semicolon v v' rest rest' Hv Hv' H1).
Qed.

(** As long as no field holds a semicolon, the connection string determines
    the configuration: two configurations with the same connection string
    are the same. *)
Theorem build_connection_string_inj (c1 c2 : DatabaseConfig) :
  no_semicolon c1 = true ->
  no_semicolon c2 = true ->
  build_connection_string c1 = build_connection_string c2 ->
  c1 = c2.
Proof.
  destruct c1 as [d1 s1 p1 b1 u1 w1 t1], c2 as [d2 s2 p2 b2 u2 w2 t2].
  unfold no_semicolon, build_connection_string. cbn [forallb driver server port database
    uid pwd tds_version].
  rewrite !andb_true_iff, !negb_true_iff.
  intros (Hd1 & Hs1 & Hp1 & Hb1 & Hu1 & Hw1 & Ht1 & _)
         (Hd2 & Hs2 & Hp2 & Hb2 & Hu2 & Hw2 & Ht2 & _) H.
  (* the driver sits between braces: its segment ends with [};] *)
  assert (Hdrv : (("DRIVER=" ++ ("{" ++ d1 ++ "}") ++ ";") ++
                  ("SERVER=" ++ s1 ++ ";") ++ ("PORT=" ++ p1 ++ ";") ++
                  ("DATABASE=" ++ b1 ++ ";") ++ ("UID=" ++ u1 ++ ";") ++
                  ("PWD=" ++ w1 ++ ";") ++ "TDS_Version=" ++ t1 ++ ";")%string
                 = (("DRIVER=" ++ ("{" ++ d2 ++ "}") ++ ";") ++
                    ("SERVER=" ++ s2 ++ ";") ++ ("PORT=" ++ p2 ++ ";") ++
                    ("DATABASE=" ++ b2 ++ ";") ++ ("UID=" ++ u2 ++ ";") ++
                    ("PWD=" ++ w2 ++ ";") ++ "TDS_Version=" ++ t2 ++ ";")%string).
  { simpl. simpl in H. rewrite !string_app_assoc in *. simpl in *. exact H. }
  apply segment_inj in Hdrv;
    [| simpl; rewrite has_char_app, ?Hd1, ?Hd2; reflexivity
     | simpl; rewrite has_char_app, ?Hd1, ?Hd2; reflexivity].
  destruct Hdrv as [Hd H0].
  assert (d1 = d2).
  { simpl in Hd. inversion Hd as [Hd']. eapply string_app_inv_tail. exact Hd'. }
  apply segment_inj in H0; [| assumption | assumption]. destruct H0 as [-> H0].
  apply segment_inj in H0; [| assumption | assumption]. destruct H0 as [-> H0].
  apply segment_inj in H0; [| assumption | assumption]. destruct H0 as [-> H0].
  apply segment_inj in H0; [| assumption | assumption]. destruct H0 as [-> H0].
  apply segment_inj in H0; [| assumption | assumption]. destruct H0 as [-> H0].
  assert (t1 = t2).
  { simpl in H0. inversion H0 as [Ht].
    apply (split_at_char semicolon t1 t2 "" ""); [assumption | assumption | exact Ht]. }
  subst. reflexivity.
Qed.

Lemma build_connection_string_inj_witness :
  no_semicolon sample_db_config = true /\ sample_db_config = sample_db_config.
Proof.
  split; [reflexivity |].
  apply (build_connection_string_inj sample_db_config sample_db_config); reflexivity.
Defined.

(** The string built for the sample configuration; and what the hypothesis
    of the theorem is for: a semicolon in a value moves the boundary between
    two parameters. *)
Example build_connection_string_example :
  build_connection_string sample_db_config
  = "DRIVER={FreeTDS};SERVER=10.0.0.5;PORT=1433;DATABASE=ecs7;UID=monitor;PWD=s3cret;TDS_Version=7.4;"
  /\ build_connection_string (mkDatabaseConfig "d" "h;PORT=1" "2" "b" "u" "w" "t")
     = build_connection_string (mkDatabaseConfig "d" "h" "1;PORT=2" "b" "u" "w" "t").
Proof. split; reflexivity. Qed.

(** * Start-up and exit of [main] *)



Lemma try_except_exit_run {A} (body : M A) s :
  match fst (try_except body is_Exception (fun _ => raise (SystemExit 1)) s) with
  | Raise e => is_Exception e = false
  | _ => True
  end.
Proof.
  unfold try_except. destruct (body s) as [[a | e |] s1]; cbn; trivial.
  destruct (is_Exception e) eqn:E; cbn; [reflexivity | assumption].
Qed.

(** An [Exception] leaves [main] in one case only: the start-up failed
    before line 474 bound the global [logger], and what comes out is the
    [NameError] that the use of the unbound name raises.  In every other
    case a run of [main] ends in a return, in [SystemExit], or in an
    exception outside the [Exception] hierarchy.  And unless the run is cut
    off while the loop is still going, the last thing it did is a call of
    [save_metrics], with the counters as they are at the end. *)
Theorem main_exit env fuel s :
  let (r, s') := main env fuel s in
  match r with
  | Ret _ => exists pre, trace s' = pre ++ [EvSaveMetrics (metrics s')]
  | Raise e =>
      (is_Exception e = true ->
       e = NameError_logger /\ exists e0, startup env = inr (BeforeLogger e0)) /\
      exists pre, trace s' = pre ++ [EvSaveMetrics (metrics s')]
  | Timeout => True
  end.
Proof.
  destruct (logger_unbound env) eqn:L.
  - unfold logger_unbound in L.
    destruct (startup env) as [p | [e0 | e0]] eqn:Hs; try discriminate.
    rewrite (main_logger_unbound _ _ _ _ Hs).
    split; [| exists (trace s); reflexivity].
    intros He. split; [| exists e0; reflexivity].
    destruct (file_write env (n_write s)) as [ew |]; [| reflexivity].
    destruct (is_Exception ew) eqn:Ew; [reflexivity | congruence].
  - rewrite (main_logger_bound _ _ _ L). unfold try_finally.
    match goal with
    | |- context [try_except ?body is_Exception ?h s] =>
        pose proof (try_except_exit_run body s) as Hx;
        destruct (try_except body is_Exception h s) as [rb sb]
    end.
    cbn [fst] in Hx. rewrite save_metrics_run. cbv zeta.
    destruct rb as [a | e |]; [| | trivial];
      (destruct (file_write env (n_write sb)) as [ew |];
       [destruct (is_Exception ew) eqn:Ew |]); cbn;
      repeat split; trivial; try (eexists; reflexivity); intros; congruence.
Qed.

(** A run of [main] whose start-up fails after the logger was set up. *)
Lemma main_startup_failure_run env fuel e :
  startup env = inr (AfterLogger e) ->
  let (r, s') := main env fuel state_init in
  n_connect s' = 0%nat /\
  trace s' = [EvSaveMetrics metrics_init] /\
  ((forall ew, file_write env 0%nat = Some ew -> is_Exception ew = true) ->
   r = Raise (if is_Exception e then SystemExit 1 else e)).
Proof.
  intros Hs. rewrite (main_logger_bound _ _ _ (logger_bound_after _ _ Hs)).
  unfold try_finally, try_except, read_startup. rewrite Hs.
  assert (B : forall k : Z -> M unit, bind (@raise Z e) k state_init = (Raise e, state_init))
    by reflexivity.
  rewrite B.
  destruct (is_Exception e); cbv beta iota delta [raise];
    rewrite save_metrics_run; cbv zeta; cbn [n_write state_init];
    (destruct (file_write env 0%nat) as [ew |] eqn:W;
     [destruct (is_Exception ew) eqn:Ew |]); cbn;
    repeat split; intros Hw; try reflexivity;
    specialize (Hw ew eq_refl); congruence.
Qed.

(** When the start-up fails, [main] does not touch the database: it makes
    no connection attempt and calls [save_metrics] once with the initial
    counters.  How it ends depends on where the start-up failed, as long as
    writing the metrics file raises nothing outside [Exception].  When
    [mkdir] or [setup_logging] raised, whatever they raised, the global
    [logger] is unbound and [main] ends in [NameError]: [logger.error] in
    the [except] clause and [logger.info] in the [finally] clause raise it.
    When [read_config] or a later line raised, [main] leaves with
    [SystemExit(1)] if the failure was an [Exception] and with the failure
    itself otherwise (the [SystemExit] of [read_config] among them). *)
Theorem main_startup_failure env fuel f :
  startup env = inr f ->
  let (r, s') := main env fuel state_init in
  n_connect s' = 0%nat /\
  trace s' = [EvSaveMetrics metrics_init] /\
  ((forall ew, file_write env 0%nat = Some ew -> is_Exception ew = true) ->
   r = Raise match f with
             | BeforeLogger _ => NameError_logger
             | AfterLogger e => if is_Exception e then SystemExit 1 else e
             end).
Proof.
  intros Hs. destruct f as [e | e].
  - rewrite (main_logger_unbound _ _ _ _ Hs). cbn [n_write state_init].
    repeat split. intros Hw.
    destruct (file_write env 0%nat) as [ew |]; [| reflexivity].
    rewrite (Hw ew eq_refl). reflexivity.
  - exact (main_startup_failure_run env fuel e Hs).
Qed.

Lemma main_startup_failure_witness :
  fst (main env_no_logs_dir 5 state_init) = Raise NameError_logger /\
  fst (main env_no_config 5 state_init) = Raise (SystemExit 1).
Proof.
  split.
  - pose proof (main_startup_failure env_no_logs_dir 5 _ eq_refl) as H.
    destruct (main env_no_logs_dir 5 state_init) as [r s']. destruct H as (_ & _ & H).
    apply H. intros ew Hw. discriminate.
  - pose proof (main_startup_failure env_no_config 5 _ eq_refl) as H.
    destruct (main env_no_config 5 state_init) as [r s']. destruct H as (_ & _ & H).
    apply H. intros ew Hw. discriminate.
Defined.

(** A readable configuration file that lacks a required parameter ends the
    program before it reaches the database: no connection attempt, one call
    of [save_metrics], exit code 1. *)
Theorem missing_parameter_exits env st fuel section param :
  startup env = startup_outcome st ->
  logging_ready st = None ->
  files_read (config_file st) = inl true ->
  parser_answers (parsed (config_file st)) ->
  In (section, param) all_required ->
  config_get (parsed (config_file st)) section param = inl None ->
  (forall ew, file_write env 0%nat = Some ew -> is_Exception ew = true) ->
  let (r, s') := main env fuel state_init in
  r = Raise (SystemExit 1) /\
  n_connect s' = 0%nat /\
  trace s' = [EvSaveMetrics metrics_init].
Proof.
  intros Hs Hlog Hread Hans Hin Hmiss Hw.
  destruct (validate_config_missing _ _ _ Hans Hin Hmiss) as (e0 & Hv & He0).
  assert (Hout : startup_outcome st = inr (AfterLogger (SystemExit 1))).
  { unfold startup_outcome, main_startup. rewrite Hlog.
    pose proof (read_config_cases _ _ Hread) as R.
    destruct (read_config (config_file st)) as [[[db slack] p] | e].
    - destruct R as (_ & R & _). congruence.
    - destruct R as (_ & _ & R & _). rewrite (R e0 Hv He0). reflexivity. }
  rewrite Hout in Hs.
  pose proof (main_startup_failure_run env fuel (SystemExit 1) Hs) as H.
  destruct (main env fuel state_init) as [r s']. destruct H as (H1 & H2 & H3).
  split; [exact (H3 Hw) | split; assumption].
Qed.

Lemma missing_parameter_exits_witness :
  fst (main env_without_token 5 state_init) = Raise (SystemExit 1).
Proof.
  pose proof (missing_parameter_exits env_without_token startup_without_token
                5 "SLACK" "BOT_TOKEN" eq_refl eq_refl eq_refl) as H.
  destruct (main env_without_token 5 state_init) as [r s'].
  apply H.
  - intros section param _. cbn.
    destruct (String.eqb param "BOT_TOKEN"); [eexists; reflexivity |].
    match goal with |- context [if ?b then _ else _] => destruct b end;
      eexists; reflexivity.
  - cbn. tauto.
  - reflexivity.
  - intros ew Hw. discriminate.
Defined.

(** * More on the monitor loop *)

Lemma sleep_accepted secs : 0 <= secs <= max_sleep -> sleep_refused secs = None.
Proof.
  intros H. unfold sleep_refused.
  assert (A : (secs <? - max_sleep) = false) by (apply Z.ltb_ge; unfold max_sleep; lia).
  assert (B : (max_sleep <? secs) = false) by (apply Z.ltb_ge; lia).
  assert (C : (secs <? 0) = false) by (apply Z.ltb_ge; lia).
  rewrite A, B, C. reflexivity.
Qed.

Lemma sleep_refused_negative secs :
  secs < 0 ->
  sleep_refused secs
  = Some (PyException
            (if secs <? - max_sleep
             then "OverflowError: timestamp too large to convert to C _PyTime_t"
             else "ValueError: sleep length must be non-negative")).
Proof.
  intros H. unfold sleep_refused.
  assert (B : (max_sleep <? secs) = false) by (apply Z.ltb_ge; unfold max_sleep; lia).
  assert (C : (secs <? 0) = true) by (apply Z.ltb_lt; lia).
  rewrite B, C. destruct (secs <? - max_sleep); reflexivity.
Qed.

Lemma time_sleep_run env site secs s :
  0 <= secs <= max_sleep ->
  time_sleep env site secs s =
  let o := sleep_result env (n_sleep s) in
  let s1 := emit (EvSleep site secs o) (tick_sleep s) in
  match o with
  | Slept => (Ret tt, s1)
  | SleptSignalled signum => (Ret tt, set_shutdown_flag true (emit (EvSignal signum) s1))
  | SleepInterrupted => (Raise KeyboardInterrupt, s1)
  | SleepFailed e => (Raise e, s1)
  end.
Proof.
  intros H. unfold time_sleep. rewrite (sleep_accepted _ H).
  rewrite bind_gets_run, !bind_modify_run. cbv zeta. cbn [n_sleep].
  destruct (sleep_result env (n_sleep s)); reflexivity.
Qed.

Lemma time_sleep_refused env site secs e s :
  sleep_refused secs = Some e ->
  time_sleep env site secs s = (Raise e, s).
Proof. intros H. unfold time_sleep. rewrite H. reflexivity. Qed.

Lemma signals_at_work_run env s :
  signals_at_work env s = (Ret tt, snd (signals_at_work env s)).
Proof.
  unfold signals_at_work. rewrite bind_gets_run, bind_modify_run.
  destruct (signal_at_work env (n_iter s)); reflexivity.
Qed.

(** ** A batch *)

(** When the cursor, the query and the fetch succeed, the body of
    [with conn:] submits exactly one notification per row of the result set,
    in the order of the result set, and leaves the watermark at the value
    its [for] loop computes, whatever becomes of the notifications. *)
Theorem process_events_submits env s :
  db_method env (n_db s) OpCursor = None ->
  db_method env (S (n_db s)) OpExecute = None ->
  db_method env (S (S (n_db s))) OpFetchall = None ->
  let rows := query_rows env (S (S (n_db s))) (last_check s) in
  let (r, s') := process_events env s in
  r = Ret tt /\
  pool s' = pool s ++ map format_slack_message rows /\
  last_check s' = watermark_after (last_check s) rows /\
  trace s' = trace s ++ EvFetch (last_check s) rows
                        :: map (fun row => EvSubmit (format_slack_message row)) rows.
Proof.
  intros Hc He Hf rows. unfold process_events.
  assert (C : db_call env OpCursor s = (Ret tt, tick_db s))
    by (rewrite db_call_run, Hc; reflexivity).
  run_with C. rewrite bind_gets_run. change (last_check (tick_db s)) with (last_check s).
  assert (F : fetch_offline_events env (last_check s) (tick_db s)
              = (Ret rows, emit (EvFetch (last_check s) rows) (tick_db (tick_db (tick_db s))))).
  { rewrite fetch_offline_events_run. cbn [n_db tick_db]. rewrite He, Hf. reflexivity. }
  run_with F. subst rows.
  set (s2 := emit (EvFetch (last_check s) (query_rows env (S (S (n_db s))) (last_check s)))
                  (tick_db (tick_db (tick_db s)))).
  destruct (query_rows env (S (S (n_db s))) (last_check s)) as [| row rows'].
  - cbn. rewrite app_nil_r. repeat split.
  - unfold bind. rewrite submit_rows_run. unfold modify. cbv beta iota.
    cbn [pool last_check trace set_last_check].
    rewrite submitted_pool, submitted_trace. subst s2. cbn [pool trace emit tick_db].
    rewrite <- app_assoc. repeat split.
Qed.

Lemma process_events_submits_witness :
  let (r, s') := process_events env_healthy (set_last_check 1000 state_init) in
  r = Ret tt /\
  pool s' = [format_slack_message row_airhockey; format_slack_message row_skeeball] /\
  last_check s' = 1500.
Proof.
  pose proof (process_events_submits env_healthy (set_last_check 1000 state_init)
                eq_refl eq_refl eq_refl) as H.
  cbv zeta in H.
  destruct (process_events env_healthy (set_last_check 1000 state_init)) as [r s'].
  destruct H as (H1 & H2 & H3 & _).
  split; [exact H1 | split; [exact H2 | exact H3]].
Defined.

(** ** The [finally] clause *)

Lemma sleep_or_break_refused env poll_interval msg s :
  sleep_refused poll_interval = Some (PyException msg) ->
  sleep_or_break env poll_interval s = (Raise (PyException msg), s).
Proof.
  intros H. unfold sleep_or_break, try_except.
  run_with (time_sleep_refused env PollSleep poll_interval _ s H). reflexivity.
Qed.

(** A negative poll interval, which [getint] accepts, ends the monitor in
    its first iteration: whatever the [try] block did, [time.sleep] raises
    [ValueError] in the [finally] clause ([OverflowError] when the interval
    lies below [- max_sleep]), outside the [except Exception] of the loop,
    and the exception leaves [monitor_swiper_offline_events]. *)
Theorem negative_poll_interval_ends_monitor env poll_interval fuel s :
  poll_interval < 0 ->
  shutdown_flag s = false ->
  let (r, s') := monitor_swiper_offline_events env poll_interval (S fuel) s in
  r = Raise (PyException
               (if poll_interval <? - max_sleep
                then "OverflowError: timestamp too large to convert to C _PyTime_t"
                else "ValueError: sleep length must be non-negative")) /\
  n_iter s' = S (n_iter s).
Proof.
  intros Hp Hflag. unfold monitor_swiper_offline_events.
  pose proof (sleep_refused_negative _ Hp) as Hm.
  set (msg := if poll_interval <? - max_sleep
              then "OverflowError: timestamp too large to convert to C _PyTime_t"
              else "ValueError: sleep length must be non-negative") in *.
  run_with (now_run env s). rewrite bind_modify_run.
  set (s0 := set_last_check (clock env (n_now s) - 60000000) (tick_now s)).
  assert (I : exists s1, iteration env poll_interval s0
                         = (Raise (PyException msg), s1) /\ n_iter s1 = S (n_iter s)).
  { unfold iteration, loop_finally.
    destruct (iteration_work env poll_interval s0) as [pending s1] eqn:W.
    destruct (iteration_work_cycle env poll_interval _ _ _ W) as [Hr _].
    assert (N : n_iter s1 = S (n_iter s)).
    { assert (K : keeps (same_on n_iter)
                    (healthy <- health_check env ;;
                     if negb (truthy healthy) then time_sleep env PollSleep poll_interval
                     else
                       conn <- get_database_connection env 3 5 ;;
                       match conn with
                       | None => time_sleep env PollSleep poll_interval
                       | Some _ => with_conn env (process_events env) ;;; save_metrics env
                       end))
        by (keeps_prog; intros ?; reflexivity).
      unfold iteration_work, try_except in W.
      rewrite (bind_ret_run _ _ _ _ _ (signals_at_work_run env s0)) in W.
      match type of W with
      | (let (_, _) := ?m ?st in _) = _ =>
          destruct (keeps_run _ _ K st) as [_ Hk]; destruct (m st) as [rw sw]
      end.
      cbn [snd] in Hk. unfold same_on in Hk.
      assert (Hsw : n_iter sw = S (n_iter s)).
      { rewrite Hk. unfold signals_at_work. rewrite bind_gets_run, bind_modify_run.
        destruct (signal_at_work env (n_iter s0)); reflexivity. }
      destruct rw as [a | e |]; [| destruct (is_Exception e) |];
        inversion W; subst; assumption. }
    rewrite (sleep_or_break_refused env poll_interval msg s1 Hm).
    exists s1. split; [| exact N].
    destruct pending; [reflexivity | reflexivity | congruence]. }
  destruct I as (s1 & I & N).
  assert (L : while_not_shutdown (S fuel) (iteration env poll_interval) s0
              = (Raise (PyException msg), s1)).
  { cbn [while_not_shutdown].
    change (shutdown_flag s0) with (shutdown_flag s). rewrite Hflag.
    run_with I. reflexivity. }
  unfold try_finally. rewrite L. cbn. split; [reflexivity | exact N].
Qed.

Lemma negative_poll_interval_ends_monitor_witness :
  -5 < 0 /\
  fst (monitor_swiper_offline_events env_healthy (-5) 3 state_init)
  = Raise (PyException "ValueError: sleep length must be non-negative").
Proof.
  split; [lia |].
  pose proof (negative_poll_interval_ends_monitor env_healthy (-5) 2 state_init
                ltac:(lia) eq_refl) as H.
  destruct (monitor_swiper_offline_events env_healthy (-5) 3 state_init) as [r s'].
  destruct H as [H _]. exact H.
Defined.

(** [KeyboardInterrupt] during the sleep of the [finally] clause, which
    starts for every poll interval [time.sleep] accepts, leaves the loop by
    [break], and the [break] discards whatever the [try] block left pending,
    an exception included: the iteration ends the loop normally. *)
Theorem keyboard_interrupt_breaks_loop env poll_interval fuel s :
  0 <= poll_interval <= max_sleep ->
  shutdown_flag s = false ->
  sleep_result env (n_sleep (snd (iteration_work env poll_interval s))) = SleepInterrupted ->
  fst (iteration env poll_interval s) = Ret true /\
  fst (while_not_shutdown (S fuel) (iteration env poll_interval) s) = Ret tt /\
  snd (while_not_shutdown (S fuel) (iteration env poll_interval) s)
  = snd (iteration env poll_interval s).
Proof.
  intros Hp Hflag Hint.
  assert (I : exists s2, iteration env poll_interval s = (Ret true, s2)).
  { unfold iteration, loop_finally.
    destruct (iteration_work env poll_interval s) as [pending s1] eqn:W.
    destruct (iteration_work_cycle env poll_interval _ _ _ W) as [Hr _].
    cbn [snd] in Hint.
    assert (B : sleep_or_break env poll_interval s1
                = (Ret true, emit (EvSleep PollSleep poll_interval SleepInterrupted)
                                  (tick_sleep s1))).
    { unfold sleep_or_break, try_except.
      assert (T := time_sleep_run env PollSleep poll_interval s1 Hp).
      cbv zeta in T. rewrite Hint in T. run_with T. reflexivity. }
    rewrite B. destruct pending; [eauto | eauto | congruence]. }
  destruct I as (s2 & I). rewrite I. cbn [fst snd while_not_shutdown].
  rewrite Hflag. run_with I. repeat split.
Qed.

Lemma keyboard_interrupt_breaks_loop_witness :
  fst (iteration_work env_interrupted 60 state_init) = Raise KeyboardInterrupt /\
  fst (iteration env_interrupted 60 state_init) = Ret true /\
  fst (while_not_shutdown 4 (iteration env_interrupted 60) state_init) = Ret tt.
Proof.
  split; [reflexivity |].
  destruct (keyboard_interrupt_breaks_loop env_interrupted 60 3 state_init
              ltac:(unfold max_sleep; lia) eq_refl eq_refl) as (H1 & H2 & _).
  split; assumption.
Defined.

(** ** Skipped cycles *)

(** A cycle that is skipped, because the health check fails or because the
    connection for the fetch cannot be opened, sleeps the poll interval
    twice when [time.sleep] accepts the interval (it lies between 0 and
    [max_sleep]) and both sleeps run to their end: once in the branch,
    before [continue], and once more in the [finally] clause that
    [continue] runs through.  It does nothing else: no fetch, no call of
    [save_metrics]. *)
Theorem skipped_cycle_sleeps_twice env poll_interval s v sh sk :
  0 <= poll_interval <= max_sleep ->
  health_check env (snd (signals_at_work env s)) = (Ret v, sh) ->
  (truthy v = false /\ sk = sh) \/
  (truthy v = true /\ get_database_connection env 3 5 sh = (Ret None, sk)) ->
  sleep_result env (n_sleep sk) = Slept ->
  sleep_result env (S (n_sleep sk)) = Slept ->
  iteration env poll_interval s
  = (Ret false,
     emit (EvSleep PollSleep poll_interval Slept)
       (tick_sleep (emit (EvSleep PollSleep poll_interval Slept) (tick_sleep sk)))).
Proof.
  intros Hp Hhc Hskip H1 H2.
  set (s1 := emit (EvSleep PollSleep poll_interval Slept) (tick_sleep sk)).
  assert (T1 : time_sleep env PollSleep poll_interval sk = (Ret tt, s1))
    by (rewrite time_sleep_run by assumption; cbv zeta; rewrite H1; reflexivity).
  assert (T2 : time_sleep env PollSleep poll_interval s1
               = (Ret tt, emit (EvSleep PollSleep poll_interval Slept) (tick_sleep s1)))
    by (rewrite time_sleep_run by assumption; cbv zeta; cbn [n_sleep s1 emit tick_sleep];
        rewrite H2; reflexivity).
  assert (W : iteration_work env poll_interval s = (Ret tt, s1)).
  { unfold iteration_work, try_except.
    run_with (signals_at_work_run env s). run_with Hhc.
    destruct Hskip as [[Hv ->] | [Hv Hc]]; rewrite Hv; cbn [negb].
    - rewrite T1. reflexivity.
    - run_with Hc. rewrite T1. reflexivity. }
  unfold iteration, loop_finally. rewrite W.
  unfold sleep_or_break, try_except. run_with T2. reflexivity.
Qed.

Lemma skipped_cycle_sleeps_twice_witness :
  poll_sleeps (trace (snd (iteration env_db_down 60 state_init)))
  = [EvSleep PollSleep 60 Slept; EvSleep PollSleep 60 Slept].
Proof.
  destruct (health_check env_db_down (snd (signals_at_work env_db_down state_init)))
    as [rh sh] eqn:Hc.
  pose proof Hc as Hc'. vm_compute in Hc'. inversion Hc'; subst rh sh; clear Hc'.
  rewrite (skipped_cycle_sleeps_twice env_db_down 60 state_init PyNone _ _
             ltac:(unfold max_sleep; lia) Hc (or_introl (conj eq_refl eq_refl)) eq_refl eq_refl).
  reflexivity.
Defined.

(** ** Entering the loop *)

(** When the first health check does not pass, [main] never enters the
    monitor loop: all it does after the check is one call of
    [save_metrics]. *)
Theorem unhealthy_start_skips_monitor env fuel poll_interval v sh :
  startup env = inl poll_interval ->
  health_check env state_init = (Ret v, sh) ->
  truthy v = false ->
  snd (main env fuel state_init)
  = tick_write (emit (EvSaveMetrics (metrics sh)) (tick_now sh)) /\
  (fst (main env fuel state_init) = Ret tt \/
   exists e, fst (main env fuel state_init) = Raise e /\
             file_write env (n_write sh) = Some e /\ is_Exception e = false).
Proof.
  intros Hs Hhc Hv. rewrite !(main_logger_bound _ _ _ (logger_bound_started _ _ Hs)).
  unfold try_finally, try_except, read_startup. rewrite Hs.
  assert (B : forall k : Z -> M unit, bind (ret poll_interval) k state_init
                                      = k poll_interval state_init) by reflexivity.
  rewrite B. run_with Hhc. rewrite Hv. cbn [negb]. cbv beta iota delta [ret].
  rewrite save_metrics_run. cbv zeta.
  destruct (file_write env (n_write sh)) as [e |] eqn:W;
    [destruct (is_Exception e) eqn:E |]; cbn; split; eauto.
Qed.

Lemma unhealthy_start_skips_monitor_witness :
  trace (snd (main env_db_down 5 state_init))
  = [EvHealthCheck; EvSleep RetrySleep 5 Slept; EvSleep RetrySleep 5 Slept;
     EvSaveMetrics (mkMetrics 0 0 1 1 None)].
Proof.
  destruct (health_check env_db_down state_init) as [rh sh] eqn:Hc.
  pose proof Hc as Hc'. vm_compute in Hc'. inversion Hc'; subst rh sh; clear Hc'.
  destruct (unhealthy_start_skips_monitor env_db_down 5 60 PyNone _ eq_refl Hc eq_refl)
    as [H _].
  rewrite H. reflexivity.
Defined.

(** When the flag is already set as the first health check returns (a
    termination signal arrived during one of its retry sleeps), the monitor
    starts no cycle: the pool is shut down and [save_metrics] is called. *)
Theorem early_signal_skips_cycles env fuel poll_interval v sh :
  startup env = inl poll_interval ->
  health_check env state_init = (Ret v, sh) ->
  truthy v = true ->
  shutdown_flag sh = true ->
  let s1 := emit EvPoolShutdown
              (set_last_check (clock env (n_now sh) - 60000000) (tick_now sh)) in
  snd (main env fuel state_init)
  = tick_write (emit (EvSaveMetrics (metrics s1)) (tick_now s1)).
Proof.
  intros Hs Hhc Hv Hflag s1. rewrite (main_logger_bound _ _ _ (logger_bound_started _ _ Hs)).
  unfold try_finally, try_except, read_startup. rewrite Hs.
  assert (B : forall k : Z -> M unit, bind (ret poll_interval) k state_init
                                      = k poll_interval state_init) by reflexivity.
  rewrite B. run_with Hhc. rewrite Hv. cbn [negb].
  assert (Mo : monitor_swiper_offline_events env poll_interval fuel sh = (Ret tt, s1)).
  { unfold monitor_swiper_offline_events.
    run_with (now_run env sh). rewrite bind_modify_run. unfold try_finally.
    assert (L : forall st, shutdown_flag st = true ->
                           while_not_shutdown fuel (iteration env poll_interval) st
                           = (Ret tt, st))
      by (intros st Hst; destruct fuel; cbn [while_not_shutdown]; rewrite Hst; reflexivity).
    rewrite L by exact Hflag. reflexivity. }
  rewrite Mo. rewrite save_metrics_run. cbv zeta.
  destruct (file_write env (n_write s1)) as [e |]; [destruct (is_Exception e) |];
    reflexivity.
Qed.

Lemma early_signal_skips_cycles_witness :
  trace (snd (main env_sigterm_at_startup 5 state_init))
  = [EvHealthCheck; EvSleep RetrySleep 5 (SleptSignalled 15); EvSignal 15;
     EvPoolShutdown; EvSaveMetrics (mkMetrics 0 0 1 0 (Some 1000))].
Proof.
  destruct (health_check env_sigterm_at_startup state_init) as [rh sh] eqn:Hc.
  pose proof Hc as Hc'. vm_compute in Hc'. inversion Hc'; subst rh sh; clear Hc'.
  rewrite (early_signal_skips_cycles env_sigterm_at_startup 5 60 PyTrue _
             eq_refl Hc eq_refl eq_refl).
  reflexivity.
Defined.

(** * The globals along a run *)

#[global] Instance coordinator_step_PreOrder : PreOrder coordinator_step.
Proof.
  split.
  - intros s. unfold coordinator_step. repeat split; auto; lia.
  - intros s1 s2 s3 (F1 & A1 & B1 & C1 & D1) (F2 & A2 & B2 & C2 & D2).
    unfold coordinator_step. repeat split; auto; try lia; congruence.
Qed.

Ltac coordinator_leaf :=
  intros ?; unfold coordinator_step, attempts_of, failures_of, sent_of, failed_of;
  cbn; repeat split; auto; lia.

Lemma coordinator_health_check env : keeps coordinator_step (health_check env).
Proof. keeps_prog; coordinator_leaf. Qed.

Lemma coordinator_save_metrics env : keeps coordinator_step (save_metrics env).
Proof. keeps_prog; coordinator_leaf. Qed.

Lemma coordinator_iteration env poll_interval :
  keeps coordinator_step (iteration env poll_interval).
Proof. keeps_prog; coordinator_leaf. Qed.

(** Between the start and the end of a run of [main], however long it is
    followed and whatever the outside world does, the monitor thread never
    clears [shutdown_flag], never decreases [db_connection_attempts] or
    [db_connection_failures], and never writes [notifications_sent] or
    [failed_notifications], which belong to the workers of the pool. *)
Theorem main_keeps_globals env fuel s :
  let s' := snd (main env fuel s) in
  (shutdown_flag s = true -> shutdown_flag s' = true) /\
  attempts_of s <= attempts_of s' /\
  failures_of s <= failures_of s' /\
  sent_of s' = sent_of s /\
  failed_of s' = failed_of s.
Proof.
  apply (main_rel coordinator_step env).
  - apply coordinator_health_check.
  - apply coordinator_iteration.
  - apply coordinator_save_metrics.
  - coordinator_leaf.
  - intros t. coordinator_leaf.
  - coordinator_leaf.
Qed.

(** * More on connecting and on the health check *)

(** The clock is read, and [last_successful_check] written, nowhere in
    [get_database_connection] and in no database call. *)
Lemma check_record_connect env max_retries retry_delay :
  keeps (same_on check_record) (get_database_connection env max_retries retry_delay).
Proof. keeps_prog; intros ?; reflexivity. Qed.

Lemma check_record_db_call env op : keeps (same_on check_record) (db_call env op).
Proof. keeps_prog; intros ?; reflexivity. Qed.

#[global] Hint Resolve check_record_connect check_record_db_call : keeps.

(** [health_check] never lets an [Exception] out, and it writes
    [last_successful_check] exactly when it returns [True], with the reading
    of the clock; in every other case the field keeps its value. *)
Theorem health_check_outcome env s :
  let (r, s') := health_check env s in
  match r with
  | Ret PyTrue => last_successful_check (metrics s') = Some (clock env (n_now s))
  | Ret _ => last_successful_check (metrics s') = last_successful_check (metrics s)
  | Raise e =>
      is_Exception e = false /\
      last_successful_check (metrics s') = last_successful_check (metrics s)
  | Timeout => False
  end.
Proof.
  pose proof (health_check_cases env s) as H.
  destruct (keeps_run _ _ (check_record_connect env 3 5) (emit EvHealthCheck s)) as [Hr Hk].
  destruct (get_database_connection env 3 5 (emit EvHealthCheck s)) as [rc s1].
  cbn [fst snd] in Hr, Hk. unfold same_on, check_record in Hk. cbn in Hk.
  inversion Hk as [[Hl Hn]].
  destruct rc as [[conn |] | e |]; [| | | congruence].
  - assert (K : keeps (same_on check_record)
                  (db_call env OpCursor ;;; db_call env OpExecute ;;;
                   db_call env OpFetchone ;;; db_call env OpCursorClose ;;;
                   db_call env OpConnClose)) by keeps_prog.
    destruct (keeps_run _ _ K s1) as [Hr2 Hk2].
    destruct ((db_call env OpCursor ;;; db_call env OpExecute ;;;
               db_call env OpFetchone ;;; db_call env OpCursorClose ;;;
               db_call env OpConnClose) s1) as [rq s2].
    cbn [fst snd] in Hr2, Hk2. unfold same_on, check_record in Hk2.
    inversion Hk2 as [[Hl2 Hn2]].
    destruct rq as [[] | e |]; [| | congruence]; rewrite H.
    + cbn. congruence.
    + destruct (is_Exception e) eqn:E; [| split; [assumption |]]; congruence.
  - rewrite H. congruence.
  - rewrite H. destruct (is_Exception e) eqn:E; [| split; [assumption |]]; congruence.
Qed.

(** [get_database_connection] sleeps only between two attempts: a call
    sleeps at most [max_retries - 1] times, and never after its last
    attempt. *)
Lemma connection_attempt_sleeps env max_retries retry_delay i s r s' :
  connection_attempt env max_retries retry_delay i s = (r, s') ->
  n_sleep s' = n_sleep s \/
  (n_sleep s' = S (n_sleep s) /\ i < max_retries - 1).
Proof.
  intros H.
  unfold connection_attempt, try_except, connect, time_sleep, signal_handler,
    bind, gets, modify, ret, raise in H.
  destruct (pyodbc_connect env (n_connect s)) as [c | e]; simpl in H.
  - inversion H; subst. left. reflexivity.
  - destruct (is_Exception e).
    + destruct (i <? max_retries - 1) eqn:L.
      * apply Z.ltb_lt in L.
        destruct (sleep_refused retry_delay); cbn in H;
          [| destruct (sleep_result env (n_sleep s))];
          inversion H; subst; simpl; auto.
      * inversion H; subst. left. reflexivity.
    + inversion H; subst. left. reflexivity.
Qed.

Lemma connection_loop_sleeps env max_retries retry_delay :
  forall n i s r s',
    for_range n i (connection_attempt env max_retries retry_delay) s = (r, s') ->
    (n_sleep s <= n_sleep s')%nat /\
    Z.of_nat (n_sleep s' - n_sleep s) <= Z.max 0 (max_retries - 1 - i).
Proof.
  induction n as [| n IH]; intros i s r s' H; simpl in H.
  - inversion H; subst. split; lia.
  - destruct (bind_inv _ _ _ _ _ H) as [(a & s1 & E1 & E2) | [(e & E1 & ->) | (E1 & ->)]];
      pose proof (connection_attempt_sleeps _ _ _ _ _ _ _ E1) as Hs.
    + destruct a as [v |].
      * inversion E2; subst.
        destruct Hs as [Hs | (Hs & Hi)]; split; lia.
      * destruct (IH _ _ _ _ E2) as [I1 I2].
        destruct Hs as [Hs | (Hs & Hi)]; split; lia.
    + destruct Hs as [Hs | (Hs & Hi)]; split; lia.
    + destruct Hs as [Hs | (Hs & Hi)]; split; lia.
Qed.

Lemma connection_attempt_connects env max_retries retry_delay i s r s' :
  connection_attempt env max_retries retry_delay i s = (r, s') ->
  n_connect s' = S (n_connect s).
Proof.
  intros H.
  unfold connection_attempt, try_except, connect, time_sleep, signal_handler,
    bind, gets, modify, ret, raise in H.
  destruct (pyodbc_connect env (n_connect s)) as [c | e]; simpl in H.
  - inversion H; subst. reflexivity.
  - destruct (is_Exception e).
    + destruct (i <? max_retries - 1).
      * destruct (sleep_refused retry_delay); cbn in H;
          [| destruct (sleep_result env (n_sleep s))];
          inversion H; subst; reflexivity.
      * inversion H; subst. reflexivity.
    + inversion H; subst. reflexivity.
Qed.

Lemma connection_loop_connects env max_retries retry_delay :
  forall n i s r s',
    for_range n i (connection_attempt env max_retries retry_delay) s = (r, s') ->
    (n_connect s <= n_connect s')%nat /\
    (n_connect s' - n_connect s <= n)%nat /\
    (n_sleep s' - n_sleep s <= n_connect s' - n_connect s)%nat.
Proof.
  induction n as [| n IH]; intros i s r s' H; simpl in H.
  - inversion H; subst. repeat split; lia.
  - destruct (bind_inv _ _ _ _ _ H) as [(a & s1 & E1 & E2) | [(e & E1 & ->) | (E1 & ->)]];
      pose proof (connection_attempt_sleeps _ _ _ _ _ _ _ E1) as Hs;
      pose proof (connection_attempt_connects _ _ _ _ _ _ _ E1) as Hc.
    + destruct a as [v |].
      * inversion E2; subst.
        destruct Hs as [Hs | (Hs & Hi)]; repeat split; lia.
      * destruct (IH _ _ _ _ E2) as (I1 & I2 & I3).
        destruct (connection_loop_sleeps _ _ _ _ _ _ _ _ E2) as [I4 _].
        destruct Hs as [Hs | (Hs & Hi)]; repeat split; lia.
    + destruct Hs as [Hs | (Hs & Hi)]; repeat split; lia.
    + destruct Hs as [Hs | (Hs & Hi)]; repeat split; lia.
Qed.

(** One call of [get_database_connection] calls [pyodbc.connect] at most
    [max_retries] times and sleeps at most [max_retries - 1] times, never
    more often than it has tried to connect. *)
Theorem get_database_connection_effort env max_retries retry_delay s :
  let s' := snd (get_database_connection env max_retries retry_delay s) in
  (n_connect s <= n_connect s')%nat /\
  Z.of_nat (n_connect s' - n_connect s) <= Z.max 0 max_retries /\
  (n_sleep s <= n_sleep s')%nat /\
  Z.of_nat (n_sleep s' - n_sleep s) <= Z.max 0 (max_retries - 1) /\
  (n_sleep s' - n_sleep s <= n_connect s' - n_connect s)%nat.
Proof.
  unfold get_database_connection. rewrite bind_modify_run.
  set (s0 := set_metrics incr_db_connection_attempts s).
  assert (Hn : n_connect s0 = n_connect s /\ n_sleep s0 = n_sleep s) by (split; reflexivity).
  destruct Hn as [Hn1 Hn2]. rewrite <- Hn1, <- Hn2. clearbody s0.
  unfold bind.
  destruct (for_range (Z.to_nat max_retries) 0
              (connection_attempt env max_retries retry_delay) s0) as [r s1] eqn:E.
  destruct (connection_loop_connects _ _ _ _ _ _ _ _ E) as (C1 & C2 & C3).
  destruct (connection_loop_sleeps _ _ _ _ _ _ _ _ E) as (S1 & S2).
  assert (Hs : snd (match r with
                    | Ret a => match a with Some v => ret v | None => ret None end s1
                    | Raise e => (Raise e, s1)
                    | Timeout => (Timeout, s1)
                    end) = s1)
    by (destruct r as [[v |] | e |]; reflexivity).
  cbv zeta. rewrite Hs. repeat split; lia.
Qed.

(** ** Connecting during one poll cycle *)

#[global] Instance effort_le_0_PreOrder : PreOrder (effort_le 0 0).
Proof.
  split.
  - intros s. unfold effort_le. lia.
  - intros s1 s2 s3 H1 H2. unfold effort_le in *. lia.
Qed.

Lemma effort_le_trans a c b d s1 s2 s3 :
  effort_le a c s1 s2 -> effort_le b d s2 s3 -> effort_le (a + b) (c + d) s1 s3.
Proof. unfold effort_le. lia. Qed.

Lemma effort_le_mono a c b d s1 s2 :
  a <= b -> (c <= d)%nat -> effort_le a c s1 s2 -> effort_le b d s1 s2.
Proof. unfold effort_le. lia. Qed.

Ltac effort_leaf := keeps_prog; intros ?; unfold effort_le, attempts_of; cbn; lia.

Lemma effort_connect env :
  keeps (effort_le 1 3) (get_database_connection env 3 5).
Proof.
  intros s r s' H. split.
  - assert (K0 : keeps (same_on n_iter) (get_database_connection env 3 5))
      by (keeps_prog; intros ?; reflexivity).
    apply (K0 _ _ _ H).
  - unfold get_database_connection in H. rewrite bind_modify_run in H.
    assert (K : keeps (same_on attempts_of)
                  (for_range (Z.to_nat 3) 0 (connection_attempt env 3 5)))
      by (keeps_prog; intros ?; reflexivity).
    destruct (for_range (Z.to_nat 3) 0 (connection_attempt env 3 5)
                (set_metrics incr_db_connection_attempts s)) as [rl s1] eqn:E.
    destruct (K _ _ _ E) as [_ Ha]. unfold same_on in Ha.
    destruct (connection_loop_connects _ _ _ _ _ _ _ _ E) as (C1 & C2 & _).
    assert (s' = s1) by (destruct rl as [[v |] | e |]; run_with_in E H;
                         inversion H; reflexivity).
    subst s'. unfold effort_le. rewrite Ha.
    change (Z.to_nat 3) with 3%nat in C2.
    unfold attempts_of. cbn in C1, C2 |- *. lia.
Qed.

Lemma effort_health_check env : keeps (effort_le 1 3) (health_check env).
Proof.
  unfold health_check.
  apply (keeps_seq (effort_le 0 0) (effort_le 1 3) (effort_le 1 3)).
  - intros s1 s2 s3 H1 H2. apply (effort_le_trans 0 0 1 3 _ _ _ H1 H2).
  - intros s1 s2. apply effort_le_mono; lia.
  - effort_leaf.
  - intros _.
    apply (keeps_try_except_seq (effort_le 1 3) (effort_le 0 0) (effort_le 1 3)).
    + intros s1 s2 s3 H1 H2. apply (effort_le_trans 1 3 0 0 _ _ _ H1 H2).
    + auto.
    + apply (keeps_seq (effort_le 1 3) (effort_le 0 0) (effort_le 1 3)).
      * intros s1 s2 s3 H1 H2. apply (effort_le_trans 1 3 0 0 _ _ _ H1 H2).
      * auto.
      * apply effort_connect.
      * intros conn. effort_leaf.
    + intros e. effort_leaf.
Qed.

Lemma effort_iteration_work env poll_interval :
  keeps (effort_le 2 6) (iteration_work env poll_interval).
Proof.
  unfold iteration_work.
  apply (keeps_try_except_seq (effort_le 2 6) (effort_le 0 0) (effort_le 2 6)).
  - intros s1 s2 s3 H1 H2. apply (effort_le_trans 2 6 0 0 _ _ _ H1 H2).
  - auto.
  - apply (keeps_seq (effort_le 0 0) (effort_le 2 6) (effort_le 2 6)).
    + intros s1 s2 s3 H1 H2. apply (effort_le_trans 0 0 2 6 _ _ _ H1 H2).
    + intros s1 s2. apply effort_le_mono; lia.
    + effort_leaf.
    + intros _.
      apply (keeps_seq (effort_le 1 3) (effort_le 1 3) (effort_le 2 6)).
      * intros s1 s2 s3 H1 H2. apply (effort_le_trans 1 3 1 3 _ _ _ H1 H2).
      * intros s1 s2. apply effort_le_mono; lia.
      * apply effort_health_check.
      * intros healthy. destruct (negb (truthy healthy)).
        -- apply (keeps_weaken (effort_le 0 0)); [intros s1 s2; apply effort_le_mono; lia |].
           effort_leaf.
        -- apply (keeps_seq (effort_le 1 3) (effort_le 0 0) (effort_le 1 3)).
           ++ intros s1 s2 s3 H1 H2. apply (effort_le_trans 1 3 0 0 _ _ _ H1 H2).
           ++ auto.
           ++ apply effort_connect.
           ++ intros conn. effort_leaf.
  - intros e. effort_leaf.
Qed.

(** One poll cycle asks for at most two connections (one for the health
    check, one for the query): [db_connection_attempts] grows by at most 2
    and [pyodbc.connect] is called at most 6 times, whatever happens in the
    cycle. *)
Theorem iteration_connects_at_most_twice env poll_interval s :
  let s' := snd (iteration env poll_interval s) in
  attempts_of s <= attempts_of s' <= attempts_of s + 2 /\
  (n_connect s <= n_connect s' <= n_connect s + 6)%nat.
Proof.
  assert (K : keeps (effort_le 2 6) (iteration env poll_interval)).
  { unfold iteration.
    apply (keeps_loop_finally_seq (effort_le 2 6) (effort_le 0 0) (effort_le 2 6)).
    - intros s1 s2 s3 H1 H2. apply (effort_le_trans 2 6 0 0 _ _ _ H1 H2).
    - apply effort_iteration_work.
    - effort_leaf. }
  apply (keeps_run _ _ K s).
Qed.

(** * More on sending *)

(** [send_slack_notification] posts at most [max_retries] times, and every
    post but its last one was rejected with [SlackApiError]: it never posts
    again once a post went through or failed in another way. *)
Theorem send_stops_at_first_success env message max_retries retry_delay s :
  let s' := snd (send_slack_notification env message max_retries retry_delay s) in
  let performed := (n_post s' - n_post s)%nat in
  (n_post s <= n_post s')%nat /\
  Z.of_nat performed <= Z.max 0 max_retries /\
  (forall k, (S k < performed)%nat -> post_outcome env (n_post s + k) = Failed).
Proof.
  destruct (send_slack_notification env message max_retries retry_delay s)
    as [r s2] eqn:Es.
  cbv zeta. cbn [snd].
  unfold send_slack_notification, bind in Es.
  destruct (for_range (Z.to_nat max_retries) 0
              (send_attempt env message max_retries retry_delay) s) as [rl s1] eqn:E.
  assert (s2 = s1) by (destruct rl as [[v |] | e |]; inversion Es; reflexivity).
  subst s2. clear Es.
  destruct (retry_loop_cases _ max_retries n_post (post_outcome env) PyFalse
              sent_of 1 failed_of
              (send_attempt_spec env message max_retries retry_delay) _ _ _ _ _ E)
    as (p & Hp & Hle & Hcase).
  unfold retry_loop_post in Hcase.
  assert (Hperf : (n_post s1 - n_post s)%nat = p) by lia.
  rewrite Hperf.
  destruct rl as [[v |] | e |].
  - destruct Hcase as (q & -> & Hq & _).
    repeat split; [lia | lia |]. intros k Hk. apply Hq. lia.
  - destruct Hcase as (-> & Hq & _).
    repeat split; [lia | lia |]. intros k Hk. apply Hq. lia.
  - destruct Hcase as (q & -> & Hq & _).
    repeat split; [lia | lia |]. intros k Hk. apply Hq. lia.
  - contradiction.
Qed.

Lemma send_stops_at_first_success_witness :
  post_outcome env_slack_flaky 0 = Failed /\ post_outcome env_slack_flaky 1 = Failed.
Proof.
  pose proof (send_stops_at_first_success env_slack_flaky sample_message 3 5 state_init)
    as H.
  destruct (send_slack_notification env_slack_flaky sample_message 3 5 state_init)
    as [r s'] eqn:E.
  vm_compute in E. inversion E; subst r s'; clear E.
  destruct H as (_ & _ & H).
  split; [apply (H 0%nat) | apply (H 1%nat)]; simpl; lia.
Defined.

(** With [max_retries <= 0] the loop body never runs: the function falls off
    its end and returns [None], having posted nothing and counted nothing. *)
Theorem send_without_retries env message max_retries retry_delay s :
  max_retries <= 0 ->
  send_slack_notification env message max_retries retry_delay s = (Ret PyNone, s).
Proof.
  intros H. unfold send_slack_notification.
  replace (Z.to_nat max_retries) with O by lia. reflexivity.
Qed.

Lemma send_without_retries_witness :
  send_slack_notification env_slack_rejecting sample_message 0 5 state_init
  = (Ret PyNone, state_init).
Proof. apply send_without_retries. lia. Defined.
